(** * vue-event-system: a shallow embedding of [src/events.js]

    The plugin installs two event channels on the host object [Vue]:
    [Vue.Events.remote] (a handler registry, an outbound queue flushed to a
    WebSocket every 250 ms, inbound message routing) and [Vue.Events.local]
    (a handler registry with synchronous emit), and a facade
    [Vue.prototype.$events] ([$on], [$once], [$off], [$emit]) over both.

    JavaScript data is embedded as the inductive type [value]; a JS object
    used as a record is an association list in insertion order; the two
    [Handlers] objects, which are only ever indexed by key, are [gmap]s; the
    mutable variables of the two closures are the fields of one state record
    threaded through a state-and-exception monad.

    Conventions. The file is a CommonJS module without a strict-mode
    directive and is read as sloppy-mode code. A string is a sequence of
    8-bit characters; the two patterns only ever match ASCII. Numbers are
    integers. A function of the host application is opaque: invoking it is
    recorded, it returns or throws, and it does not call back into the bus.
    A function given as an option ([openHandler], [errorHandler],
    [closeHandler]) is taken to return, and the WebSocket constructor to
    accept the URL it is given; the statements that would depend on either
    are restricted accordingly. Inherited properties and the enumeration
    order of array-index keys are not modelled. *)

From Stdlib Require Import ZArith Ascii String List.
From stdpp Require Import gmap strings list pretty.

Open Scope string_scope.

#[local] Set Warnings "-register-all".

(** ** JavaScript values *)

(** The values the model passes around. Numbers are the integers; a function
    value is opaque and carries only its identity. An array keeps, besides
    its elements, the named (non-index) properties assigned to it. *)
Inductive value : Type :=
| VUndefined
| VNull
| VBool (b : bool)
| VNum (n : Z)
| VStr (s : string)
| VFun (f : nat)
| VArr (elems : list value) (named : list (string * value))
| VObj (props : list (string * value)).

(** A plain object: own properties in insertion order. *)
Abbreviation object := (list (string * value)).

(** ToBoolean. *)
Definition truthy (v : value) : bool :=
  match v with
  | VUndefined | VNull => false
  | VBool b => b
  | VNum n => negb (n =? 0)%Z
  | VStr s => negb (String.eqb s "")
  | VFun _ | VArr _ _ | VObj _ => true
  end.

(** The [typeof] operator. *)
Definition typeof (v : value) : string :=
  match v with
  | VUndefined => "undefined"
  | VNull => "object"
  | VBool _ => "boolean"
  | VNum _ => "number"
  | VStr _ => "string"
  | VFun _ => "function"
  | VArr _ _ | VObj _ => "object"
  end.

(** [a || b]. *)
Definition js_or (a b : value) : value := if truthy a then a else b.

(** [o[k]] on an object: the property's value, [undefined] when absent. *)
Fixpoint get_prop (k : string) (o : object) : value :=
  match o with
  | [] => VUndefined
  | (k', v) :: o' => if String.eqb k k' then v else get_prop k o'
  end.

(** [o[k] = v] on an object: an existing property keeps its place, a new
    one is added last. *)
Fixpoint set_prop (k : string) (v : value) (o : object) : object :=
  match o with
  | [] => [(k, v)]
  | (k', v') :: o' =>
      if String.eqb k k' then (k, v) :: o' else (k', v') :: set_prop k v o'
  end.

(** ** JSON.stringify *)

Definition dquote : ascii := "034"%char.
Definition backslash : ascii := "092"%char.

Definition hex_digit (n : N) : ascii :=
  match n with
  | 0 => "0" | 1 => "1" | 2 => "2" | 3 => "3" | 4 => "4" | 5 => "5"
  | 6 => "6" | 7 => "7" | 8 => "8" | 9 => "9" | 10 => "a" | 11 => "b"
  | 12 => "c" | 13 => "d" | 14 => "e" | _ => "f"
  end%char%N.

(** One character of a quoted JSON string: the quote and the backslash are
    escaped, control characters are written with their short or their
    [\u00XX] escape. *)
Definition escape_char (c : ascii) : string :=
  let n := N_of_ascii c in
  if Ascii.eqb c dquote then String backslash (String dquote "")
  else if Ascii.eqb c backslash then String backslash (String backslash "")
  else if (n =? 8)%N then String backslash "b"
  else if (n =? 9)%N then String backslash "t"
  else if (n =? 10)%N then String backslash "n"
  else if (n =? 12)%N then String backslash "f"
  else if (n =? 13)%N then String backslash "r"
  else if (n <? 32)%N then
    String backslash
      (String "u" (String "0" (String "0"
        (String (hex_digit (n / 16)) (String (hex_digit (n mod 16)) "")))))
  else String c "".

Fixpoint escape (s : string) : string :=
  match s with
  | EmptyString => ""
  | String c s' => escape_char c ++ escape s'
  end.

Definition quote (s : string) : string :=
  String dquote (escape s ++ String dquote "").

Fixpoint join (sep : string) (l : list string) : string :=
  match l with
  | [] => ""
  | [x] => x
  | x :: l' => x ++ sep ++ join sep l'
  end.

(** [JSON.stringify v]; [None] is the result [undefined]. An object member
    whose value serializes to [undefined] is left out, such an array element
    is written [null]; the named properties of an array are not written. *)
Fixpoint stringify (v : value) : option string :=
  match v with
  | VUndefined | VFun _ => None
  | VNull => Some "null"
  | VBool true => Some "true"
  | VBool false => Some "false"
  | VNum n => Some (pretty n)
  | VStr s => Some (quote s)
  | VArr elems _ =>
      Some ("[" ++ join "," (List.map (fun e => default "null" (stringify e)) elems) ++ "]")
  | VObj props =>
      Some ("{" ++ join ","
              (omap (fun kv => (fun t => quote (fst kv) ++ ":" ++ t) <$> stringify (snd kv)) props)
            ++ "}")
  end.

(** ** Identifier normalization *)

Definition is_dash (c : ascii) : bool := Ascii.eqb c "-".

Definition in_range (lo hi : N) (c : ascii) : bool :=
  let n := N_of_ascii c in ((lo <=? n) && (n <=? hi))%N.

Definition is_digit : ascii -> bool := in_range 48 57.
Definition is_lower : ascii -> bool := in_range 97 122.
Definition is_upper : ascii -> bool := in_range 65 90.

(** The class [[A-Za-z0-9]] (flag [i] adds nothing to it). *)
Definition is_alnum (c : ascii) : bool := is_upper c || is_lower c || is_digit c.

(** The class [[a-z]] under flag [i]: the letters of both cases. *)
Definition is_letter (c : ascii) : bool := is_lower c || is_upper c.

(** [toUpperCase] on one matched character. *)
Definition toUpperCase (c : ascii) : ascii :=
  if is_lower c then ascii_of_N (N_of_ascii c - 32) else c.

(** [s.replace(/-(cls)/gi, (s, group1) => group1.toUpperCase())]: one scan
    from left to right; at a dash followed by a character of the class the
    two characters are replaced by the upper-cased second one and the scan
    resumes after them; any other character is copied. *)
Fixpoint replace_dash (cls : ascii -> bool) (s : string) : string :=
  match s with
  | EmptyString => EmptyString
  | String c rest =>
      match rest with
      | String d rest' =>
          if is_dash c && cls d
          then String (toUpperCase d) (replace_dash cls rest')
          else String c (replace_dash cls rest)
      | EmptyString => String c EmptyString
      end
  end.

(** The expression shared by attach, detach and the inbound message handler
    of both channels:
    [options.camelCase ? identifier.replace(/-([A-Za-z0-9])/gi, ...) : identifier]. *)
Definition normalize (camelCase : value) (identifier : string) : string :=
  if truthy camelCase then replace_dash is_alnum identifier else identifier.

(** The expression of the local channel's [emitHandler], whose pattern is
    [/-([a-z])/gi]. *)
Definition normalize_emit (camelCase : value) (identifier : string) : string :=
  if truthy camelCase then replace_dash is_letter identifier else identifier.

(** ** Property access and conversion to a string *)

(** ToString, as used for a computed property key. A function's source
    text is not modelled. *)
Fixpoint to_string (v : value) : string :=
  match v with
  | VUndefined => "undefined"
  | VNull => "null"
  | VBool true => "true"
  | VBool false => "false"
  | VNum n => pretty n
  | VStr s => s
  | VFun _ => "function"
  | VArr elems _ =>
      join "," (List.map (fun e => match e with
                                   | VUndefined | VNull => ""
                                   | _ => to_string e
                                   end) elems)
  | VObj _ => "[object Object]"
  end.

(** [target[k] = v]. [None] is the TypeError of an assignment on [null] or
    [undefined]; on another primitive the assignment does nothing. On an
    array the key is a named property (the keys the source assigns,
    [identifier] and the local channel's [undefined], are not indices). *)
Definition set_member (k : string) (v : value) (target : value) : option value :=
  match target with
  | VUndefined | VNull => None
  | VObj props => Some (VObj (set_prop k v props))
  | VArr elems named => Some (VArr elems (set_prop k v named))
  | _ => Some target
  end.

(** The array index that a property key denotes: the key is the decimal
    numeral of a natural number, without a sign and without leading zeros. *)
Fixpoint index_digits (k : string) (acc : N) : option N :=
  match k with
  | EmptyString => Some acc
  | String c rest =>
      if is_digit c then index_digits rest (10 * acc + (N_of_ascii c - 48))%N else None
  end.

Definition array_index (k : string) : option N :=
  match k with
  | EmptyString => None
  | String c rest =>
      if Ascii.eqb c "0"
      then (if String.eqb rest "" then Some 0%N else None)
      else index_digits k 0
  end.

(** [target[k]]. [None] is the TypeError of a read on [null] or
    [undefined]. An array has its elements under their indices and its
    [length] besides its named properties, a string its characters and its
    [length]; another primitive has no own property. The methods inherited
    from the prototypes read as [undefined]: the source only ever goes on
    to call [replace] on what it read, which fails alike on [undefined] and
    on a function. *)
Definition get_member (k : string) (target : value) : option value :=
  match target with
  | VUndefined | VNull => None
  | VObj props => Some (get_prop k props)
  | VArr elems named =>
      if String.eqb k "length" then Some (VNum (Z.of_nat (List.length elems)))
      else
        match array_index k with
        | Some i =>
            if (i <? N.of_nat (List.length elems))%N
            then Some (nth (N.to_nat i) elems VUndefined)
            else Some (get_prop k named)
        | None => Some (get_prop k named)
        end
  | VStr s =>
      if String.eqb k "length" then Some (VNum (Z.of_nat (String.length s)))
      else
        match array_index k with
        | Some i =>
            if (i <? N.of_nat (String.length s))%N
            then match String.get (N.to_nat i) s with
                 | Some c => Some (VStr (String c EmptyString))
                 | None => Some VUndefined
                 end
            else Some VUndefined
        | None => Some VUndefined
        end
  | _ => Some VUndefined
  end.

(** [arguments[i]]. *)
Definition argument (i : nat) (arguments : list value) : value :=
  nth i arguments VUndefined.

(** ** Callbacks, registries, sockets *)

Inductive exn : Type :=
| TypeError
| SyntaxError
| HostError (f : nat).

(** A function object that can sit in a registry. [Host f raises] is a
    function of the host application, identified by [f]; the model records
    each of its invocations, after which it returns or, when [raises] is
    set, throws. [Once k identifier callback thisArg] is the closure [once]
    that the [k]-th call of [$once] creates over its parameters; its [fn]
    property is [callback]. *)
Inductive jsfun : Type :=
| Host (f : nat) (raises : bool)
| Once (k : nat) (identifier : value) (callback : jsfun) (thisArg : value).

(** [a === b] on function objects: the same object. *)
Definition same_function (a b : jsfun) : bool :=
  match a, b with
  | Host f _, Host g _ => Nat.eqb f g
  | Once k _ _ _, Once l _ _ _ => Nat.eqb k l
  | _, _ => false
  end.

(** [c.fn]: [None] is [undefined]. *)
Definition fn (c : jsfun) : option jsfun :=
  match c with
  | Host _ _ => None
  | Once _ _ callback _ => Some callback
  end.

(** The object literal pushed by attach. *)
Record entry : Type := Entry { callback : jsfun; thisArg : value }.

(** What a key of [Handlers] holds: [null] after a one-argument detach, or
    the array of its entries. A key that was never assigned is absent. *)
Inductive slot : Type :=
| Null
| Arr (Events : list entry).

(** [Handlers[identifier]] read as a condition: the array when the value is
    truthy (an array, even an empty one), nothing for [undefined] and [null]. *)
Definition events_of (Handlers : gmap string slot) (identifier : string) : option (list entry) :=
  match Handlers !! identifier with
  | Some (Arr Events) => Some Events
  | _ => None
  end.

Inductive ready_state : Type := CONNECTING | OPEN | CLOSING | CLOSED.

(** A WebSocket: its state, and the frames passed to [send] so far, oldest
    first. The URL and the sub-protocol it was opened with are not modelled. *)
Record socket : Type := Socket { readyState : ready_state; sent : list string }.

(** One invocation of a host function. *)
Record call : Type := Call { call_fn : nat; call_this : value; call_arguments : list value }.

(** ** State *)

(** The variables of the two closures of [install], and what the model
    keeps of the environment. The local closure's [socketPump] is never
    read or written and has no field; its [options] never change
    (see [Local.options]). *)
Record bus : Type := Bus {
  remote_options : object;
  Client : option socket;
  remote_Handlers : gmap string slot;
  socketPump : list string;
  pumpInterval : option nat;
  local_Handlers : gmap string slot;
  intervals : nat;
  calls : list call;
  closures : nat
}.

Definition set_remote_options (o : object) (st : bus) : bus :=
  Bus o (Client st) (remote_Handlers st) (socketPump st) (pumpInterval st)
      (local_Handlers st) (intervals st) (calls st) (closures st).
Definition set_Client (c : option socket) (st : bus) : bus :=
  Bus (remote_options st) c (remote_Handlers st) (socketPump st) (pumpInterval st)
      (local_Handlers st) (intervals st) (calls st) (closures st).
Definition set_remote_Handlers (h : gmap string slot) (st : bus) : bus :=
  Bus (remote_options st) (Client st) h (socketPump st) (pumpInterval st)
      (local_Handlers st) (intervals st) (calls st) (closures st).
Definition set_socketPump (q : list string) (st : bus) : bus :=
  Bus (remote_options st) (Client st) (remote_Handlers st) q (pumpInterval st)
      (local_Handlers st) (intervals st) (calls st) (closures st).
Definition set_pumpInterval (t : option nat) (st : bus) : bus :=
  Bus (remote_options st) (Client st) (remote_Handlers st) (socketPump st) t
      (local_Handlers st) (intervals st) (calls st) (closures st).
Definition set_local_Handlers (h : gmap string slot) (st : bus) : bus :=
  Bus (remote_options st) (Client st) (remote_Handlers st) (socketPump st) (pumpInterval st)
      h (intervals st) (calls st) (closures st).
Definition set_intervals (n : nat) (st : bus) : bus :=
  Bus (remote_options st) (Client st) (remote_Handlers st) (socketPump st) (pumpInterval st)
      (local_Handlers st) n (calls st) (closures st).
Definition set_calls (l : list call) (st : bus) : bus :=
  Bus (remote_options st) (Client st) (remote_Handlers st) (socketPump st) (pumpInterval st)
      (local_Handlers st) (intervals st) l (closures st).
Definition set_closures (n : nat) (st : bus) : bus :=
  Bus (remote_options st) (Client st) (remote_Handlers st) (socketPump st) (pumpInterval st)
      (local_Handlers st) (intervals st) (calls st) n.

(** ** The monad of the embedded code: state and exceptions *)

Inductive outcome (A : Type) : Type :=
| Return (a : A)
| Throw (e : exn).
Arguments Return {A} a.
Arguments Throw {A} e.

(** A computation runs from a state to a result or an exception, and the
    state reached; what was written before a throw stays written. *)
Definition M (A : Type) : Type := bus -> outcome A * bus.

Definition ret {A} (a : A) : M A := fun st => (Return a, st).
Definition throw {A} (e : exn) : M A := fun st => (Throw e, st).
Definition bind {A B} (m : M A) (k : A -> M B) : M B :=
  fun st => match m st with
            | (Return a, st') => k a st'
            | (Throw e, st') => (Throw e, st')
            end.
Definition gets {A} (f : bus -> A) : M A := fun st => (Return (f st), st).
Definition modify (f : bus -> bus) : M unit := fun st => (Return tt, f st).

Notation "x <- m ; k" := (bind m (fun x => k))
  (at level 20, m at level 100, k at level 200, only parsing).
Notation "'do' m ; k" := (bind m (fun _ => k))
  (at level 20, m at level 100, k at level 200, only parsing).

(** [when c m]: [if (c) m]. *)
Definition when (c : bool) (m : M unit) : M unit := if c then m else ret tt.

(** The state a computation ends in, and its result. *)
Definition exec {A} (m : M A) (st : bus) : bus := snd (m st).
Definition result {A} (m : M A) (st : bus) : outcome A := fst (m st).

(** ** Code shared by the two closures *)

(** [options.camelCase ? identifier.replace(...) : identifier], the result
    read as a key of [Handlers]. [norm] is the replacement of the site.
    Only a string has a [replace] method: with [camelCase] set, any other
    identifier ([undefined] for a missing argument) throws a TypeError. *)
Definition normalized (norm : value -> string -> string)
    (camelCase identifier : value) : M string :=
  match identifier with
  | VStr s => ret (norm camelCase s)
  | _ => if truthy camelCase then throw TypeError else ret (to_string identifier)
  end.

(** [(Handlers[identifier] || (Handlers[identifier] = [])).push(e)]. *)
Definition push_entry (identifier : string) (e : entry)
    (Handlers : gmap string slot) : gmap string slot :=
  match events_of Handlers identifier with
  | Some Events => <[identifier := Arr (Events ++ [e])]> Handlers
  | None => <[identifier := Arr [e]]> Handlers
  end.

(** How [detachHandler] was called: with no argument, with one, or with two
    or more (the callback may then be [undefined], as [$off(identifier)]
    passes it). *)
Inductive detach_arguments : Type :=
| Detach0
| Detach1 (identifier : value)
| Detach2 (identifier : value) (callback : option jsfun).

Definition detach_identifier (a : detach_arguments) : value :=
  match a with
  | Detach0 => VUndefined
  | Detach1 identifier | Detach2 identifier _ => identifier
  end.

(** [Handler[index].callback === callback ||
     Handler[index].callback.fn === callback]. Every entry's callback is a
    function object, so it equals an [undefined] callback never, and its
    [fn] does exactly when it has none. *)
Definition matches (callback : option jsfun) (e : entry) : bool :=
  let 'Entry registered _ := e in
  match callback with
  | Some c =>
      same_function registered c
      || match fn registered with
         | Some g => same_function g c
         | None => false
         end
  | None =>
      match fn registered with
      | Some _ => false
      | None => true
      end
  end.

(** [for (let index = n - 1; index >= 0; index--)
       if (...) Handler.splice(index, 1)].
    The loop starts at [Handler.length - 1] and a splice at [index] leaves
    every smaller index in range, so [Handler[index]] always exists. *)
Fixpoint detach_loop (callback : option jsfun) (n : nat) (Handler : list entry) : list entry :=
  match n with
  | 0 => Handler
  | S index =>
      detach_loop callback index
        (match Handler !! index with
         | Some e => if matches callback e then delete index Handler else Handler
         | None => Handler
         end)
  end.

(** The host object [Vue], as far as [install] writes to it: it assigns
    [Vue.Events] and [Vue.getRemoteID] (and [$events] on [Vue.prototype]).
    What they hold is kept elsewhere in the model; the framework's own
    static members (extend, mixin, use, ...) include none named [remote]. *)
Definition Vue : object := [("Events", VObj []); ("getRemoteID", VFun 0)].

(** [Vue.remote.detach(identifier, callback)], the first statement of the
    closure [once]. The remote channel is [Vue.Events.remote]; [Vue.remote]
    is [undefined], and reading [detach] off it throws a TypeError. (No
    value of the model is callable: the second branch is never taken.) *)
Definition Vue_remote_detach (identifier : value) (callback : jsfun) : M unit :=
  match get_member "detach" (get_prop "remote" Vue) with
  | None => throw TypeError
  | Some _ => throw TypeError
  end.

(** [callback.apply(thisArg, arguments)]. The closure [once] ignores the
    receiver it is applied to and uses the [thisArg] it captured. *)
Fixpoint apply (callback : jsfun) (thisArg : value) (arguments : list value) : M unit :=
  match callback with
  | Host f raises =>
      do modify (fun st => set_calls (calls st ++ [Call f thisArg arguments]) st);
      if raises then throw (HostError f) else ret tt
  | Once _ identifier callback' thisArg' =>
      do Vue_remote_detach identifier callback';
      apply callback' thisArg' arguments
  end.

(** [Events.forEach((Event) => Event.callback.apply(Event.thisArg, [payload]))]. *)
Fixpoint forEach (Events : list entry) (payload : value) : M unit :=
  match Events with
  | [] => ret tt
  | Event :: rest =>
      do apply (callback Event) (thisArg Event) [payload];
      forEach rest payload
  end.

(** What [Client.send] and the queue hold for a serialized value. *)
Definition serialize (v : value) : string := default "undefined" (stringify v).

(** ** The remote channel: [Vue.Events.remote] *)

Module Remote.

(** [options.k = options.k || d]. *)
Definition or_default (k : string) (d : value) (options : object) : object :=
  set_prop k (js_or (get_prop k options) d) options.

(** [options = options || {}] and the six defaults. [None] is a call of
    [install] without options. *)
Definition init_options (options : option object) : object :=
  let options := from_option id [] options in
  let options := or_default "secure" (VBool false) options in
  let options := or_default "host" (VStr "localhost") options in
  let options := or_default "port" (VNum 8080) options in
  let options := or_default "identifier" (VStr "identifier") options in
  let options := or_default "endpoint" (VStr "") options in
  or_default "camelCase" (VBool true) options.

(** The URL that [connect] opens,
    [`${options.secure ? 'wss://' : 'ws://'}${options.host}${options.port
    ? ':' + options.port : ''}/${options.endpoint}`]. *)
Definition url (options : object) : string :=
  (if truthy (get_prop "secure" options) then "wss://" else "ws://")
  ++ to_string (get_prop "host" options)
  ++ (if truthy (get_prop "port" options)
      then ":" ++ to_string (get_prop "port" options)
      else "")
  ++ "/" ++ to_string (get_prop "endpoint" options).

(** [Client = new WebSocket(...)]: a socket in state CONNECTING; its four
    event properties name the handlers below. The constructor is taken to
    accept the URL and the sub-protocol; where it does not, it throws a
    SyntaxError and [Client] keeps its value. *)
Definition connect : M unit :=
  modify (set_Client (Some (Socket CONNECTING []))).

(** [if (options.name) options.name(event)]. A function-valued option is
    taken to return. *)
Definition hook (name : string) (event : value) : M unit :=
  options <- gets remote_options;
  let h := get_prop name options in
  if truthy h then
    match h with
    | VFun f => modify (fun st => set_calls (calls st ++ [Call f (VObj options) [event]]) st)
    | _ => throw TypeError
    end
  else ret tt.

Definition openHandler (open : value) : M unit := hook "openHandler" open.

Definition errorHandler (error : value) : M unit := hook "errorHandler" error.

(** [message.data] is given parsed, as [Json]. *)
Definition messageHandler (Json : value) : M unit :=
  options <- gets remote_options;
  match get_member (to_string (get_prop "identifier" options)) Json with
  | None => throw TypeError
  | Some raw =>
      identifier <- normalized normalize (get_prop "camelCase" options) raw;
      Handlers <- gets remote_Handlers;
      match events_of Handlers identifier with
      | Some Events => forEach Events Json
      | None => ret tt
      end
  end.

Definition closeHandler (close : value) : M unit :=
  do hook "closeHandler" close;
  timer <- gets pumpInterval;
  do match timer with
     | Some _ => modify (fun st => set_pumpInterval None (set_intervals (pred (intervals st)) st))
     | None => ret tt
     end;
  modify (set_Client None).

Definition attachHandler (identifier : value) (callback : jsfun) (thisArg : value) : M unit :=
  options <- gets remote_options;
  identifier <- normalized normalize (get_prop "camelCase" options) identifier;
  modify (fun st => set_remote_Handlers
                      (push_entry identifier (Entry callback thisArg) (remote_Handlers st)) st).

Definition detachHandler (a : detach_arguments) : M unit :=
  options <- gets remote_options;
  identifier <- normalized normalize (get_prop "camelCase" options) (detach_identifier a);
  match a with
  | Detach0 => modify (set_remote_Handlers ∅)
  | Detach1 _ =>
      Handlers <- gets remote_Handlers;
      match events_of Handlers identifier with
      | None => ret tt
      | Some _ => modify (set_remote_Handlers (<[identifier := Null]> Handlers))
      end
  | Detach2 _ callback =>
      Handlers <- gets remote_Handlers;
      match events_of Handlers identifier with
      | None => ret tt
      | Some Handler =>
          modify (set_remote_Handlers
                    (<[identifier := Arr (detach_loop callback (List.length Handler) Handler)]> Handlers))
      end
  end.

(** [socketPump.push(JSON.stringify(v))]. *)
Definition push (v : value) : M unit :=
  modify (fun st => set_socketPump (socketPump st ++ [serialize v]) st).

Definition emitHandler (arguments : list value) : M unit :=
  let identifier := argument 0 arguments in
  let args := js_or (argument 1 arguments) (VArr [] []) in
  let args :=
    if (2 <? List.length arguments)%nat
    then (if (1 <? List.length arguments)%nat then VArr (tl arguments) [] else VArr [] [])
    else args in
  if String.eqb (typeof args) "object" then
    match set_member "identifier" identifier args with
    | Some args => push args
    | None => throw TypeError
    end
  else push (VObj [("identifier", identifier); ("arguments", args)]).

(** [Client.send(item)]. *)
Definition send (item : string) : M unit :=
  modify (fun st =>
    set_Client (option_map (fun c => Socket (readyState c) (sent c ++ [item])) (Client st)) st).

(** [socketPump.forEach((item) => Client.send(item))]. *)
Fixpoint send_each (items : list string) : M unit :=
  match items with
  | [] => ret tt
  | item :: rest => do send item; send_each rest
  end.

Definition is_open (c : socket) : bool :=
  match readyState c with
  | OPEN => true
  | _ => false
  end.

Definition pumpHandler : M unit :=
  queue <- gets socketPump;
  if (List.length queue =? 0)%nat then ret tt
  else
    client <- gets Client;
    do match client with
       | None => connect
       | Some _ => ret tt
       end;
    client <- gets Client;
    match client with
    | None => throw TypeError
    | Some c =>
        if is_open c then
          do send_each queue;
          modify (set_socketPump [])
        else ret tt
    end.

(** [if (Client) { Client.close(); Client = null }]. *)
Definition disconnect : M unit :=
  modify (set_Client None).

(** The browser reports the socket held in [Client] open: its [readyState]
    becomes OPEN and [onopen] runs. *)
Definition opened (open : value) : M unit :=
  do modify (fun st => set_Client (option_map (fun c => Socket OPEN (sent c)) (Client st)) st);
  openHandler open.

End Remote.

(** ** The local channel: [Vue.Events.local] *)

Module Local.

(** The closure is called without an argument: [options] is the fresh
    object of [options || {}] with [camelCase] defaulted, and nothing else
    ever writes to it. Its [identifier] property is [undefined]. *)
Definition options : object :=
  Remote.or_default "camelCase" (VBool true) (from_option id [] None).

Definition attachHandler (identifier : value) (callback : jsfun) (thisArg : value) : M unit :=
  identifier <- normalized normalize (get_prop "camelCase" options) identifier;
  modify (fun st => set_local_Handlers
                      (push_entry identifier (Entry callback thisArg) (local_Handlers st)) st).

Definition detachHandler (a : detach_arguments) : M unit :=
  identifier <- normalized normalize (get_prop "camelCase" options) (detach_identifier a);
  match a with
  | Detach0 => modify (set_local_Handlers ∅)
  | Detach1 _ =>
      Handlers <- gets local_Handlers;
      match events_of Handlers identifier with
      | None => ret tt
      | Some _ => modify (set_local_Handlers (<[identifier := Null]> Handlers))
      end
  | Detach2 _ callback =>
      Handlers <- gets local_Handlers;
      match events_of Handlers identifier with
      | None => ret tt
      | Some Handler =>
          modify (set_local_Handlers
                    (<[identifier := Arr (detach_loop callback (List.length Handler) Handler)]> Handlers))
      end
  end.

(** The object [args] that the handlers receive, before the identifier is
    written to it. *)
Definition payload (arguments : list value) : value :=
  let args :=
    if (2 <? List.length arguments)%nat then VArr (tl arguments) []
    else if (1 <? List.length arguments)%nat then argument 1 arguments
    else VArr [] [] in
  if negb (String.eqb (typeof args) "object")
  then VObj [("arguments", args)]
  else args.

(** [arguments] as the caller sees it after the call: called with exactly
    one extra argument that is an object or an array, the assignment
    [args[options.identifier] = identifier] wrote to that very object. *)
Definition written_back (arguments : list value) (args : value) : list value :=
  match arguments with
  | [identifier; extra] =>
      if String.eqb (typeof extra) "object" then [identifier; args] else arguments
  | _ => arguments
  end.

(** The result is the returned boolean, with [arguments] as the caller
    sees it afterwards. *)
Definition emitHandler (arguments : list value) : M (bool * list value) :=
  identifier <- normalized normalize_emit (get_prop "camelCase" options) (argument 0 arguments);
  Handlers <- gets local_Handlers;
  let Events := events_of Handlers identifier in
  match set_member (to_string (get_prop "identifier" options)) (VStr identifier)
                   (payload arguments) with
  | None => throw TypeError
  | Some args =>
      match Events with
      | Some Events =>
          do forEach Events args;
          ret (true, written_back arguments args)
      | None => ret (false, written_back arguments args)
      end
  end.

End Local.

(** ** The facade: [Vue.prototype.$events] *)

Module Facade.

(** [Vue.Events[isLocal ? 'local' : 'remote'].attach]. *)
Definition attach (isLocal : value) : value -> jsfun -> value -> M unit :=
  if truthy isLocal then Local.attachHandler else Remote.attachHandler.

(** [$on]. *)
Definition on (this identifier isLocal : value) (callback : jsfun) : M value :=
  do attach isLocal identifier callback this;
  ret this.

(** [$once]: every call creates a new closure [once]. *)
Definition once (this identifier isLocal : value) (callback : jsfun) : M value :=
  k <- gets closures;
  do modify (set_closures (S k));
  do attach isLocal identifier (Once k identifier callback this) this;
  ret this.

(** [$off]: both detach calls receive three arguments. *)
Definition off (this identifier : value) (callback : option jsfun) : M value :=
  do Local.detachHandler (Detach2 identifier callback);
  do Remote.detachHandler (Detach2 identifier callback);
  ret this.

(** [$emit]. *)
Definition emit (arguments : list value) : M unit :=
  r <- Local.emitHandler arguments;
  if fst r then ret tt else Remote.emitHandler (snd r).

End Facade.

(** [install(Vue, options)]: both closures are created with empty
    registries, no socket, an empty queue, and one interval timer running
    [Remote.pumpHandler] (its handle is not kept: [pumpInterval] stays
    [null]). The mixin is not modelled. *)
Definition install (options : option object) : bus :=
  Bus (Remote.init_options options) None ∅ [] None ∅ 1 [] 0.

(** ** [Vue.getRemoteID] *)

(** [n.toString(16)] for a natural number. *)
Fixpoint to_hex_digits (fuel : nat) (n : N) (acc : string) : string :=
  match fuel with
  | 0 => acc
  | S fuel' =>
      let acc' := String (hex_digit (n mod 16)) acc in
      if (n <? 16)%N then acc' else to_hex_digits fuel' (n / 16) acc'
  end.

Definition to_hex (n : N) : string :=
  to_hex_digits (S (N.to_nat (N.log2 n))) n "".

(** [([1e7]+-1e3+-4e3+-8e3+-1e11)]: the array is converted to a string and
    each number is appended to it. *)
Definition uuid_template : string :=
  to_string (VArr [VNum 10000000] []) ++ to_string (VNum (-1000))
  ++ to_string (VNum (-4000)) ++ to_string (VNum (-8000))
  ++ to_string (VNum (-100000000000)).

(** The characters of [/[018]/]. *)
Definition is_018 (c : ascii) : bool :=
  Ascii.eqb c "0" || Ascii.eqb c "1" || Ascii.eqb c "8".

(** [c ^ byte & 15 >> c / 4] for a digit character [c]: the division binds
    tightest, then the shift (whose count is truncated to an integer), then
    [&], then [^]. *)
Definition random_digit (c : ascii) (byte : N) : N :=
  let d := (N_of_ascii c - 48)%N in
  N.lxor d (N.land byte (N.shiftr 15 (d / 4))).

(** [template.replace(/[018]/g, c => (...).toString(16))]. The [k]-th call
    of [crypto.getRandomValues(new Uint8Array(1))] yields the byte
    [rnd k mod 256]. *)
Fixpoint replace_018 (rnd : nat -> N) (k : nat) (s : string) : string :=
  match s with
  | EmptyString => EmptyString
  | String c rest =>
      if is_018 c
      then to_hex (random_digit c (rnd k mod 256)) ++ replace_018 rnd (S k) rest
      else String c (replace_018 rnd k rest)
  end.

Definition getRemoteID (rnd : nat -> N) : string :=
  replace_018 rnd 0 uuid_template.

(** ** Everything that can happen to an installed bus *)

(** The calls the plugin offers ([Vue.Events.remote], [Vue.Events.local],
    [$events]) and the events its environment delivers (the interval timer
    and the four socket events). *)
Inductive action : Type :=
| RemoteConnect
| RemoteDisconnect
| RemoteAttach (identifier : value) (callback : jsfun) (thisArg : value)
| RemoteDetach (a : detach_arguments)
| RemoteEmit (arguments : list value)
| LocalAttach (identifier : value) (callback : jsfun) (thisArg : value)
| LocalDetach (a : detach_arguments)
| LocalEmit (arguments : list value)
| FacadeOn (this identifier isLocal : value) (callback : jsfun)
| FacadeOnce (this identifier isLocal : value) (callback : jsfun)
| FacadeOff (this identifier : value) (callback : option jsfun)
| FacadeEmit (arguments : list value)
| Tick
| SocketOpen (open : value)
| SocketError (error : value)
| SocketMessage (Json : value)
| SocketClose (close : value).

(** The state after one action, whether or not it threw. *)
Definition act (a : action) (st : bus) : bus :=
  match a with
  | RemoteConnect => exec Remote.connect st
  | RemoteDisconnect => exec Remote.disconnect st
  | RemoteAttach i c t => exec (Remote.attachHandler i c t) st
  | RemoteDetach d => exec (Remote.detachHandler d) st
  | RemoteEmit arguments => exec (Remote.emitHandler arguments) st
  | LocalAttach i c t => exec (Local.attachHandler i c t) st
  | LocalDetach d => exec (Local.detachHandler d) st
  | LocalEmit arguments => exec (Local.emitHandler arguments) st
  | FacadeOn this i l c => exec (Facade.on this i l c) st
  | FacadeOnce this i l c => exec (Facade.once this i l c) st
  | FacadeOff this i c => exec (Facade.off this i c) st
  | FacadeEmit arguments => exec (Facade.emit arguments) st
  | Tick => exec Remote.pumpHandler st
  | SocketOpen open => exec (Remote.opened open) st
  | SocketError error => exec (Remote.errorHandler error) st
  | SocketMessage Json => exec (Remote.messageHandler Json) st
  | SocketClose close => exec (Remote.closeHandler close) st
  end.

(** The state after [install] and a sequence of actions. *)
Definition reached (options : option object) (actions : list action) : bus :=
  fold_left (fun st a => act a st) actions (install options).

(** * Vocabulary of the statements *)

(** Some substring is a dash followed by a character of the class. *)
Fixpoint has_dash_cls (cls : ascii -> bool) (s : string) : bool :=
  match s with
  | EmptyString => false
  | String c rest =>
      match rest with
      | String d _ => (is_dash c && cls d) || has_dash_cls cls rest
      | EmptyString => false
      end
  end.

(** Some substring is two dashes followed by a character of the class. *)
Fixpoint has_dash_dash_cls (cls : ascii -> bool) (s : string) : bool :=
  match s with
  | EmptyString => false
  | String c rest =>
      match rest with
      | String d (String e _) =>
          (is_dash c && is_dash d && cls e) || has_dash_dash_cls cls rest
      | _ => false
      end
  end.

(** The first character is of the class. *)
Definition head_cls (cls : ascii -> bool) (s : string) : bool :=
  match s with
  | String d _ => cls d
  | EmptyString => false
  end.

(** The first two characters are a dash and a character of the class. *)
Definition head_dash_cls (cls : ascii -> bool) (s : string) : bool :=
  match s with
  | String d (String e _) => is_dash d && cls e
  | _ => false
  end.

(** A state whose remote options went through the defaults: every state
    reached from [install], since nothing writes [options] afterwards. *)
Definition configured (st : bus) : Prop :=
  truthy (get_prop "camelCase" (remote_options st)) = true.

(** The registry after [detachHandler] found the key [k]. *)
Definition detached (a : detach_arguments) (k : string) (Handlers : gmap string slot)
  : gmap string slot :=
  match a, events_of Handlers k with
  | Detach0, _ => ∅
  | Detach1 _, Some _ => <[k := Null]> Handlers
  | Detach2 _ callback, Some Handler =>
      <[k := Arr (List.filter (fun e => negb (matches callback e)) Handler)]> Handlers
  | _, None => Handlers
  end.

(** The two registries. *)
Inductive channel : Type := local | remote.

Definition Handlers_of (ch : channel) (st : bus) : gmap string slot :=
  match ch with
  | local => local_Handlers st
  | remote => remote_Handlers st
  end.

Definition set_Handlers (ch : channel) (H : gmap string slot) (st : bus) : bus :=
  match ch with
  | local => set_local_Handlers H st
  | remote => set_remote_Handlers H st
  end.

(** The calls that read or write a registry. *)
Inductive operation : Type :=
| Attach (ch : channel) (identifier : value) (callback : jsfun) (thisArg : value)
| Detach (ch : channel) (a : detach_arguments)
| Emit (arguments : list value)
| Message (Json : value).

(** One call; what it shows the caller is whether it threw and, for the
    local emit, the boolean it returned. *)
Definition perform (o : operation) : M (option (bool * list value)) :=
  match o with
  | Attach local i c t => do Local.attachHandler i c t; ret None
  | Attach remote i c t => do Remote.attachHandler i c t; ret None
  | Detach local a => do Local.detachHandler a; ret None
  | Detach remote a => do Remote.detachHandler a; ret None
  | Emit arguments => r <- Local.emitHandler arguments; ret (Some r)
  | Message Json => do Remote.messageHandler Json; ret None
  end.

(** A sequence of calls, each on the state the previous one left, whether
    or not it threw: what each showed, and the final state. *)
Fixpoint perform_all (ops : list operation) (st : bus)
  : list (outcome (option (bool * list value))) * bus :=
  match ops with
  | [] => ([], st)
  | o :: ops' =>
      let r := perform o st in
      let rest := perform_all ops' (snd r) in
      (fst r :: fst rest, snd rest)
  end.

(** Two registries that every lookup reads alike: a key mapped to [null]
    in one may be absent in the other. *)
Definition same_registry (H1 H2 : gmap string slot) : Prop :=
  forall k, events_of H1 k = events_of H2 k.

(** Two states that differ at most in that way. *)
Definition same_bus (st1 st2 : bus) : Prop :=
  same_registry (remote_Handlers st1) (remote_Handlers st2)
  /\ same_registry (local_Handlers st1) (local_Handlers st2)
  /\ set_remote_Handlers ∅ (set_local_Handlers ∅ st1)
     = set_remote_Handlers ∅ (set_local_Handlers ∅ st2).

(** What [forEach] does, apart from the state: its outcome and the calls
    it logs. *)
Fixpoint forEach_log (Events : list entry) (payload : value) : outcome unit * list call :=
  match Events with
  | [] => (Return tt, [])
  | Event :: rest =>
      match callback Event with
      | Host f raises =>
          let c := Call f (thisArg Event) [payload] in
          if raises then (Throw (HostError f), [c])
          else (fst (forEach_log rest payload), c :: snd (forEach_log rest payload))
      | Once _ _ _ _ => (Throw TypeError, [])
      end
  end.

(** What invoking an entry with [payload] adds to the log of host calls. *)
Definition invocation (payload : value) (e : entry) : list call :=
  match callback e with
  | Host f _ => [Call f (thisArg e) [payload]]
  | Once _ _ _ _ => []
  end.

(** The entry's callback is a host function that returns. *)
Definition returns (e : entry) : bool :=
  match callback e with
  | Host _ raises => negb raises
  | Once _ _ _ _ => false
  end.

(** The entry's callback has a [fn] property: it is a [once] closure. *)
Definition is_once (e : entry) : bool :=
  match fn (callback e) with
  | Some _ => true
  | None => false
  end.

(** The options [install] knows, with their defaults. *)
Definition known_defaults : list (string * value) :=
  [("secure", VBool false); ("host", VStr "localhost"); ("port", VNum 8080);
   ("identifier", VStr "identifier"); ("endpoint", VStr ""); ("camelCase", VBool true)].

(** The shape of a version-4 UUID in lower case: groups of 8, 4, 4, 4 and
    12 hexadecimal digits separated by dashes, the third group starting
    with [4] and the fourth with one of [8], [9], [a], [b]. *)
Inductive uuid_class : Type := Hex | Dash | Four | Variant.

Definition in_class (k : uuid_class) (c : ascii) : bool :=
  match k with
  | Hex => is_digit c || in_range 97 102 c
  | Dash => Ascii.eqb c "-"
  | Four => Ascii.eqb c "4"
  | Variant => Ascii.eqb c "8" || Ascii.eqb c "9" || Ascii.eqb c "a" || Ascii.eqb c "b"
  end.

Fixpoint has_shape (p : list uuid_class) (s : string) : bool :=
  match p, s with
  | [], EmptyString => true
  | k :: p', String c s' => in_class k c && has_shape p' s'
  | _, _ => false
  end.

Definition uuid_v4_shape : list uuid_class :=
  repeat Hex 8 ++ [Dash] ++ repeat Hex 4 ++ [Dash; Four] ++ repeat Hex 3
  ++ [Dash; Variant] ++ repeat Hex 3 ++ [Dash] ++ repeat Hex 12.

(** The class the template asks of each position of the result. *)
Definition class_of (c : ascii) : uuid_class :=
  if Ascii.eqb c "-" then Dash
  else if Ascii.eqb c "4" then Four
  else if Ascii.eqb c "8" then Variant
  else Hex.

(** What no action is meant to change: the options, the handle of the
    flush timer and the number of interval timers running. *)
Definition fixed (st : bus) : object * option nat * nat :=
  (remote_options st, pumpInterval st, intervals st).

(** A computation that leaves them as they are, however it ends. *)
Definition keeps {A} (m : M A) : Prop := forall st, fixed (snd (m st)) = fixed st.

(** The channel that [Vue.Events[isLocal ? 'local' : 'remote']] selects. *)
Definition channel_of (isLocal : value) : channel :=
  if truthy isLocal then local else remote.

Definition other (ch : channel) : channel :=
  match ch with
  | local => remote
  | remote => local
  end.

(** Calls of [$on(identifier, isLocal, f)] one after the other, each given
    by its receiver and a host function [f] that returns. *)
Definition subscribe_all (identifier isLocal : value) (subs : list (value * nat))
    (st : bus) : bus :=
  fold_left
    (fun st sub => exec (Facade.on (fst sub) identifier isLocal (Host (snd sub) false)) st)
    subs st.

(** The entry a subscriber's [$on] files, and the call a dispatch of
    [payload] to it logs. *)
Definition subscription (sub : value * nat) : entry :=
  Entry (Host (snd sub) false) (fst sub).

Definition delivery (payload : value) (sub : value * nat) : call :=
  Call (snd sub) (fst sub) [payload].

(** What escapes from the dispatch when the entry's callback does not
    return: the host function's own exception, or the TypeError of the
    closure [once]. *)
Definition failure (e : entry) : exn :=
  match callback e with
  | Host f _ => HostError f
  | Once _ _ _ _ => TypeError
  end.

(** A value without a [replace] method: [undefined], [null], a boolean or
    a number. *)
Definition has_no_replace (v : value) : bool :=
  match v with
  | VUndefined | VNull | VBool _ | VNum _ => true
  | _ => false
  end.

(** The messages handed to the socket that [Client] holds. *)
Definition delivered (st : bus) : list string :=
  match Client st with
  | Some c => sent c
  | None => []
  end.

(** * Properties *)

(** Tactic: unfold the monad. *)
Ltac run :=
  unfold exec, result, bind, ret, throw, gets, modify, when in *; cbn beta iota in *.

(** ** Characters and the replacement *)

Lemma string_ind2 (P : string -> Prop) :
  P "" ->
  (forall c, P (String c "")) ->
  (forall c d s, P s -> P (String d s) -> P (String c (String d s))) ->
  forall s, P s.
Proof.
  intros H0 H1 H2 s.
  assert (P s /\ forall c, P (String c s)) as [? _]; [|assumption].
  induction s as [|d s [IHs IHd]]; split; auto.
Qed.

Lemma alnum_not_dash c : is_alnum c = true -> is_dash c = false.
Proof. destruct c as [[] [] [] [] [] [] [] []]; vm_compute; congruence. Qed.

Lemma alnum_upper c : is_alnum c = true -> is_alnum (toUpperCase c) = true.
Proof. destruct c as [[] [] [] [] [] [] [] []]; vm_compute; congruence. Qed.

Lemma alnum_letter_or_digit c : is_alnum c = is_letter c || is_digit c.
Proof. destruct c as [[] [] [] [] [] [] [] []]; reflexivity. Qed.

Section Replace.

Variable cls : ascii -> bool.

Lemma has_dash_cls_cons c t :
  has_dash_cls cls (String c t) = (is_dash c && head_cls cls t) || has_dash_cls cls t.
Proof.
  destruct t as [|d t]; simpl; [|reflexivity].
  now rewrite andb_false_r.
Qed.

Lemma has_dash_dash_cls_cons c t :
  has_dash_dash_cls cls (String c t)
  = (is_dash c && head_dash_cls cls t) || has_dash_dash_cls cls t.
Proof.
  destruct t as [|d [|e t]]; simpl.
  - now rewrite andb_false_r.
  - now rewrite andb_false_r.
  - now rewrite andb_assoc.
Qed.

Lemma replace_dash_length s :
  String.length (replace_dash cls s) <= String.length s.
Proof.
  induction s as [| c | c d s IHs IHd] using string_ind2; simpl; try lia.
  destruct (is_dash c && cls d); simpl in *; lia.
Qed.

(** The replacement leaves a string as it is exactly when it finds nothing
    to replace. *)
Lemma replace_dash_fixed s :
  replace_dash cls s = s <-> has_dash_cls cls s = false.
Proof.
  induction s as [| c | c d s IHs IHd] using string_ind2.
  - simpl. tauto.
  - simpl. tauto.
  - change (replace_dash cls (String c (String d s)))
      with (if is_dash c && cls d
            then String (toUpperCase d) (replace_dash cls s)
            else String c (replace_dash cls (String d s))).
    change (has_dash_cls cls (String c (String d s)))
      with ((is_dash c && cls d) || has_dash_cls cls (String d s)).
    destruct (is_dash c && cls d) eqn:Hm; simpl orb.
    + split; [|discriminate].
      intros Heq. apply (f_equal String.length) in Heq. simpl in Heq.
      pose proof (replace_dash_length s). lia.
    + rewrite <- IHd. split.
      * intros Heq. now injection Heq.
      * intros Heq. now rewrite Heq.
Qed.

Hypothesis cls_not_dash : forall c, cls c = true -> is_dash c = false.
Hypothesis cls_upper : forall c, cls c = true -> cls (toUpperCase c) = true.

Lemma head_cls_replace t :
  head_cls cls t = false ->
  head_cls cls (replace_dash cls t) = head_dash_cls cls t.
Proof.
  destruct t as [|d [|e t]]; simpl; intros Hd; try congruence.
  destruct (is_dash d && cls e) eqn:Hm; simpl.
  - apply andb_prop in Hm as [_ He]. now apply cls_upper.
  - assumption.
Qed.

(** After one pass a dash is followed by a character of the class exactly
    where the input had two dashes before such a character. *)
Lemma has_dash_cls_replace s :
  has_dash_cls cls (replace_dash cls s) = has_dash_dash_cls cls s.
Proof.
  induction s as [| c | c d s IHs IHd] using string_ind2; try reflexivity.
  change (replace_dash cls (String c (String d s)))
    with (if is_dash c && cls d
          then String (toUpperCase d) (replace_dash cls s)
          else String c (replace_dash cls (String d s))).
  rewrite (has_dash_dash_cls_cons c).
  destruct (is_dash c && cls d) eqn:Hm.
  - apply andb_prop in Hm as [Hc Hd].
    rewrite has_dash_cls_cons, (cls_not_dash _ (cls_upper _ Hd)), IHs.
    rewrite (has_dash_dash_cls_cons d).
    assert (head_dash_cls cls (String d s) = false) as ->.
    { destruct s; simpl; [reflexivity|]. now rewrite (cls_not_dash _ Hd). }
    now rewrite (cls_not_dash _ Hd), andb_false_r.
  - rewrite has_dash_cls_cons, IHd. f_equal.
    destruct (is_dash c); [|reflexivity]. simpl in *.
    now apply (head_cls_replace (String d s)).
Qed.

(** A second pass changes nothing exactly when the input has no two dashes
    before a character of the class. *)
Lemma replace_dash_twice s :
  replace_dash cls (replace_dash cls s) = replace_dash cls s
  <-> has_dash_dash_cls cls s = false.
Proof. now rewrite replace_dash_fixed, has_dash_cls_replace. Qed.

End Replace.

(** Without a dash before a digit the two patterns find the same matches. *)
Lemma replace_dash_letter_alnum s :
  has_dash_cls is_digit s = false ->
  replace_dash is_letter s = replace_dash is_alnum s.
Proof.
  induction s as [| c | c d s IHs IHd] using string_ind2; try reflexivity.
  rewrite has_dash_cls_cons. intros Hs.
  apply orb_false_elim in Hs as [Hcd Hrest].
  change (replace_dash is_letter (String c (String d s)))
    with (if is_dash c && is_letter d
          then String (toUpperCase d) (replace_dash is_letter s)
          else String c (replace_dash is_letter (String d s))).
  change (replace_dash is_alnum (String c (String d s)))
    with (if is_dash c && is_alnum d
          then String (toUpperCase d) (replace_dash is_alnum s)
          else String c (replace_dash is_alnum (String d s))).
  assert (is_dash c && is_alnum d = is_dash c && is_letter d) as ->.
  { rewrite alnum_letter_or_digit. simpl in Hcd.
    destruct (is_dash c), (is_letter d), (is_digit d); simpl in *; congruence. }
  rewrite (IHd Hrest).
  destruct (is_dash c && is_letter d); [|reflexivity].
  f_equal. apply IHs.
  rewrite has_dash_cls_cons in Hrest. now apply orb_false_elim in Hrest as [_ ?].
Qed.

(** ** Normalization is not idempotent on every string (C3) *)

(** C3, the claim as stated fails: ["a--b"] normalizes to ["a-B"], and a
    second normalization removes the remaining dash, giving ["aB"]. *)
Lemma normalize_not_idempotent :
  ~ (forall s : string,
       normalize (VBool true) (normalize (VBool true) s) = normalize (VBool true) s).
Proof. intros H. specialize (H "a--b"). vm_compute in H. discriminate H. Qed.

(** C3, amended: normalizing an already normalized identifier returns it
    unchanged exactly for the raw identifiers that contain no two
    consecutive dashes immediately followed by a letter or a digit. *)
Theorem normalize_idempotent_iff (s : string) :
  normalize (VBool true) (normalize (VBool true) s) = normalize (VBool true) s
  <-> has_dash_dash_cls is_alnum s = false.
Proof.
  unfold normalize. simpl truthy. cbv iota.
  apply replace_dash_twice.
  - exact alnum_not_dash.
  - exact alnum_upper.
Qed.

Lemma normalize_idempotent_witness :
  normalize (VBool true) (normalize (VBool true) "new-score-2")
  = normalize (VBool true) "new-score-2".
Proof. apply (proj2 (normalize_idempotent_iff "new-score-2")). reflexivity. Defined.

(** ** Options (C10) *)

Lemma get_set_prop k v o : get_prop k (set_prop k v o) = v.
Proof.
  induction o as [|[k' v'] o IH]; simpl.
  - now rewrite String.eqb_refl.
  - destruct (String.eqb k k') eqn:E; simpl; rewrite ?E, ?String.eqb_refl; auto.
Qed.

Lemma get_set_prop_ne k k' v o :
  String.eqb k k' = false -> get_prop k (set_prop k' v o) = get_prop k o.
Proof.
  intros Hne. induction o as [|[k'' v''] o IH]; simpl.
  - now rewrite Hne.
  - destruct (String.eqb k' k'') eqn:E; simpl.
    + apply String.eqb_eq in E. subst k''. now rewrite Hne.
    + now rewrite IH.
Qed.

Lemma get_or_default k d o :
  get_prop k (Remote.or_default k d o) = js_or (get_prop k o) d.
Proof. apply get_set_prop. Qed.

Lemma get_or_default_ne k k' d o :
  String.eqb k k' = false -> get_prop k (Remote.or_default k' d o) = get_prop k o.
Proof. apply get_set_prop_ne. Qed.

Lemma init_options_camelCase options :
  get_prop "camelCase" (Remote.init_options options)
  = js_or (get_prop "camelCase" (from_option id [] options)) (VBool true).
Proof.
  unfold Remote.init_options. rewrite get_or_default.
  now rewrite !get_or_default_ne by reflexivity.
Qed.

Lemma truthy_js_or_true v : truthy (js_or v (VBool true)) = true.
Proof. unfold js_or. now destruct (truthy v) eqn:E. Qed.

Lemma install_configured options : configured (install options).
Proof.
  unfold configured, install. simpl.
  rewrite init_options_camelCase. apply truthy_js_or_true.
Qed.

(** C10: whatever options [install] receives, the [camelCase] setting both
    channels read afterwards is truthy, and is [true] itself whenever the
    supplied value is a boolean ([false] included), missing or otherwise
    falsy; so both channels always replace. At attach, detach and the
    inbound message the replacement is the identity exactly on the
    identifiers without a dash before a letter or a digit. At the local
    emit it is not: its pattern has letters only, and it is the identity
    exactly on the identifiers without a dash before a letter, so it leaves
    an identifier such as ["a-1"] as it is, which the other sites change. *)
Theorem camelCase_cannot_be_disabled (options : option object) :
  let supplied := get_prop "camelCase" (from_option id [] options) in
  let effective := get_prop "camelCase" (remote_options (install options)) in
  effective = js_or supplied (VBool true)
  /\ truthy effective = true
  /\ (truthy supplied = false -> effective = VBool true)
  /\ (forall b : bool, supplied = VBool b -> effective = VBool true)
  /\ get_prop "camelCase" Local.options = VBool true
  /\ forall s : string,
       normalize effective s = replace_dash is_alnum s
       /\ normalize (get_prop "camelCase" Local.options) s = replace_dash is_alnum s
       /\ normalize_emit (get_prop "camelCase" Local.options) s = replace_dash is_letter s
       /\ (normalize effective s = s <-> has_dash_cls is_alnum s = false)
       /\ (normalize (get_prop "camelCase" Local.options) s = s
           <-> has_dash_cls is_alnum s = false)
       /\ (normalize_emit (get_prop "camelCase" Local.options) s = s
           <-> has_dash_cls is_letter s = false)
       /\ (has_dash_cls is_alnum s = true -> has_dash_cls is_letter s = false ->
           normalize_emit (get_prop "camelCase" Local.options) s = s
           /\ normalize (get_prop "camelCase" Local.options) s <> s
           /\ normalize effective s <> s).
Proof.
  cbv zeta. unfold install. cbn [remote_options].
  rewrite init_options_camelCase.
  pose proof (truthy_js_or_true (get_prop "camelCase" (from_option id [] options))) as Ht.
  split; [reflexivity|]. split; [exact Ht|].
  split; [unfold js_or; now intros ->|].
  split; [intros b ->; now destruct b|].
  split; [reflexivity|].
  intros s.
  assert (normalize (js_or (get_prop "camelCase" (from_option id [] options)) (VBool true)) s
          = replace_dash is_alnum s) as Hn.
  { unfold normalize. now rewrite Ht. }
  change (normalize_emit (get_prop "camelCase" Local.options) s)
    with (replace_dash is_letter s).
  change (normalize (get_prop "camelCase" Local.options) s)
    with (replace_dash is_alnum s).
  rewrite Hn.
  split; [reflexivity|]. split; [reflexivity|]. split; [reflexivity|].
  split; [apply replace_dash_fixed|].
  split; [apply replace_dash_fixed|].
  split; [apply replace_dash_fixed|].
  intros Ha Hl.
  assert (replace_dash is_alnum s <> s) as Hne.
  { intros Heq. apply replace_dash_fixed in Heq. congruence. }
  split; [now apply replace_dash_fixed|]. split; exact Hne.
Qed.

Lemma camelCase_false_witness :
  get_prop "camelCase" (remote_options (install (Some [("camelCase", VBool false)])))
  = VBool true
  /\ normalize_emit (get_prop "camelCase" Local.options) "a-1" = "a-1".
Proof.
  pose proof (camelCase_cannot_be_disabled (Some [("camelCase", VBool false)])) as H.
  cbv zeta in H. destruct H as (_ & _ & Hfalse & _ & _ & Hs).
  split.
  - exact (Hfalse eq_refl).
  - destruct (Hs "a-1") as (_ & _ & _ & _ & _ & _ & Hdigit).
    exact (proj1 (Hdigit eq_refl eq_refl)).
Defined.

(** The local emit of ["a-1"]: the identifier has a dash before a digit and
    is left as it is, so the entry that attach filed under ["a1"] is not
    found, whatever [camelCase] was configured. *)
Lemma local_emit_leaves_dash_digit :
  has_dash_cls is_alnum "a-1" = true
  /\ normalize_emit (get_prop "camelCase" Local.options) "a-1" = "a-1"
  /\ normalize (get_prop "camelCase" Local.options) "a-1" = "a1"
  /\ forall options,
       let st := exec (Local.attachHandler (VStr "a-1") (Host 1 false) VNull)
                   (install options) in
       events_of (local_Handlers st) "a1" = Some [Entry (Host 1 false) VNull]
       /\ result (Local.emitHandler [VStr "a-1"]) st
          = Return (false, [VStr "a-1"])
       /\ calls (exec (Local.emitHandler [VStr "a-1"]) st) = [].
Proof.
  split; [reflexivity|]. split; [reflexivity|]. split; [reflexivity|].
  intros options. cbv zeta. repeat split.
Qed.

(** ** The outbound envelope of the remote channel (C5) *)

(** The remote [emitHandler] never throws and appends exactly one item,
    which depends on the arguments only. *)
Lemma remote_emit_appends_one (arguments : list value) :
  exists item, forall st,
    Remote.emitHandler arguments st
    = (Return tt, set_socketPump (socketPump st ++ [item]) st).
Proof.
  unfold Remote.emitHandler.
  destruct (2 <? List.length arguments)%nat.
  - destruct (1 <? List.length arguments)%nat; simpl; eexists; reflexivity.
  - unfold js_or. destruct (truthy (argument 1 arguments)) eqn:Ht.
    + destruct (argument 1 arguments); simpl in *; try discriminate; eexists; reflexivity.
    + simpl. eexists; reflexivity.
Qed.

(** C5: what the remote [emitHandler] appends to the queue, case by case.
    Without an extra argument, with a falsy one, with an array or with
    several extra arguments, the item is the serialization of an array, in
    which the identifier assigned to it as a named property is not written:
    ["[]"] in the first two cases. Only a sole plain object receives the
    identifier field, and only a sole truthy primitive (or function) is
    wrapped as [{identifier, arguments}]. *)
Theorem remote_emit_envelope (st : bus) (identifier : value) :
  let enqueued arguments item :=
    Remote.emitHandler arguments st
    = (Return tt, set_socketPump (socketPump st ++ [item]) st) in
  enqueued [identifier] "[]"
  /\ (forall v, truthy v = false -> enqueued [identifier; v] "[]")
  /\ (forall a b rest,
        enqueued (identifier :: a :: b :: rest) (serialize (VArr (a :: b :: rest) [])))
  /\ (forall elems named,
        enqueued [identifier; VArr elems named] (serialize (VArr elems [])))
  /\ (forall props,
        enqueued [identifier; VObj props]
                 (serialize (VObj (set_prop "identifier" identifier props))))
  /\ (forall v, truthy v = true -> typeof v <> "object" ->
        enqueued [identifier; v]
                 (serialize (VObj [("identifier", identifier); ("arguments", v)]))).
Proof.
  cbv zeta. split; [reflexivity|].
  split.
  { intros v Hv. unfold Remote.emitHandler, js_or.
    change (argument 1 [identifier; v]) with v. now rewrite Hv. }
  split; [reflexivity|]. split; [reflexivity|]. split; [reflexivity|].
  intros v Hv Ht. unfold Remote.emitHandler, js_or.
  change (argument 1 [identifier; v]) with v. rewrite Hv.
  destruct v; simpl in *; try discriminate; try reflexivity; now destruct Ht.
Qed.

Lemma remote_emit_envelope_witness :
  Remote.emitHandler [VStr "greet"; VNum 0] (install None)
  = (Return tt, set_socketPump (socketPump (install None) ++ ["[]"]) (install None)).
Proof.
  apply (proj1 (proj2 (remote_emit_envelope (install None) (VStr "greet")))).
  reflexivity.
Defined.

(** The spec's own example, [emit("greet", 42)], and the case it misses. *)
Lemma remote_emit_examples :
  socketPump (exec (Remote.emitHandler [VStr "greet"; VNum 42]) (install None))
  = [serialize (VObj [("identifier", VStr "greet"); ("arguments", VNum 42)])]
  /\ socketPump (exec (Remote.emitHandler [VStr "greet"; VObj [("name", VStr "x")]]) (install None))
     = [serialize (VObj [("name", VStr "x"); ("identifier", VStr "greet")])]
  /\ socketPump (exec (Remote.emitHandler [VStr "greet"]) (install None)) = ["[]"]
  /\ serialize (VObj [("identifier", VStr "greet"); ("arguments", VArr [] [])]) <> "[]".
Proof. repeat split. vm_compute. discriminate. Qed.

(** ** The flush tick (C2) *)

Lemma send_each_appends items : forall st c,
  Client st = Some c ->
  Remote.send_each items st
  = (Return tt, set_Client (Some (Socket (readyState c) (sent c ++ items))) st).
Proof.
  induction items as [|item items IH]; intros st c Hc; simpl.
  - run. f_equal. rewrite app_nil_r. destruct st, c; simpl in *; now subst.
  - run. unfold Remote.send at 1. run.
    rewrite (IH _ (Socket (readyState c) (sent c ++ [item]))).
    + f_equal. simpl. rewrite <- app_assoc. destruct st; reflexivity.
    + simpl. now rewrite Hc.
Qed.

Lemma pump_empty st : socketPump st = [] -> Remote.pumpHandler st = (Return tt, st).
Proof. intros H. unfold Remote.pumpHandler. run. now rewrite H. Qed.

Lemma pump_absent st :
  socketPump st <> [] -> Client st = None ->
  Remote.pumpHandler st = (Return tt, exec Remote.connect st).
Proof.
  intros Hq Hc. unfold Remote.pumpHandler. run.
  destruct (socketPump st) eqn:E; [congruence|]. simpl.
  rewrite Hc. reflexivity.
Qed.

Lemma pump_open st c :
  socketPump st <> [] -> Client st = Some c -> readyState c = OPEN ->
  Remote.pumpHandler st
  = (Return tt,
     set_socketPump [] (set_Client (Some (Socket OPEN (sent c ++ socketPump st))) st)).
Proof.
  intros Hq Hc Ho. unfold Remote.pumpHandler. run.
  assert ((List.length (socketPump st) =? 0)%nat = false) as ->.
  { destruct (socketPump st); [congruence|reflexivity]. }
  rewrite Hc. cbn beta iota. rewrite Hc. unfold Remote.is_open. rewrite Ho.
  rewrite (send_each_appends _ _ c Hc). now rewrite Ho.
Qed.

Lemma pump_not_open st c :
  Client st = Some c -> readyState c <> OPEN ->
  Remote.pumpHandler st = (Return tt, st).
Proof.
  intros Hc Ho. unfold Remote.pumpHandler. run.
  destruct (List.length (socketPump st) =? 0)%nat; [reflexivity|].
  rewrite Hc. cbn beta iota. rewrite Hc. unfold Remote.is_open.
  now destruct (readyState c).
Qed.

Lemma opened_Client ev st c :
  Client st = Some c ->
  Client (exec (Remote.opened ev) st) = Some (Socket OPEN (sent c))
  /\ socketPump (exec (Remote.opened ev) st) = socketPump st.
Proof.
  intros Hc. unfold Remote.opened, Remote.openHandler, Remote.hook. run.
  destruct (truthy _); [|simpl; now rewrite Hc].
  destruct (get_prop _ _); simpl; now rewrite Hc.
Qed.

Lemma pump_connecting_idle st n :
  Client st = Some (Socket CONNECTING []) ->
  Nat.iter n (exec Remote.pumpHandler) st = st.
Proof.
  intros Hc. induction n as [|n IH]; [reflexivity|].
  rewrite Nat.iter_succ, IH. unfold exec.
  now rewrite (pump_not_open st _ Hc).
Qed.

(** C2: one tick of the flush timer. With an empty queue nothing changes;
    with a non-empty queue and no socket, [connect] runs and nothing is
    sent; with an open socket every queued item is sent, in queue order,
    after what was sent before, and the queue is emptied; with a socket
    that is not open nothing changes. So two messages enqueued while
    disconnected stay queued, in order, through the tick that connects and
    through any number of ticks while the socket is connecting, and are
    sent first-enqueued first by the tick after the socket opens. *)
Theorem pumpHandler_tick (st : bus) :
  (socketPump st = [] -> Remote.pumpHandler st = (Return tt, st))
  /\ (socketPump st <> [] -> Client st = None ->
      Remote.pumpHandler st = (Return tt, exec Remote.connect st)
      /\ Client (exec Remote.connect st) = Some (Socket CONNECTING [])
      /\ socketPump (exec Remote.connect st) = socketPump st)
  /\ (forall c, socketPump st <> [] -> Client st = Some c -> readyState c = OPEN ->
      Remote.pumpHandler st
      = (Return tt,
         set_socketPump []
           (set_Client (Some (Socket OPEN (sent c ++ socketPump st))) st)))
  /\ (forall c, Client st = Some c -> readyState c <> OPEN ->
      Remote.pumpHandler st = (Return tt, st))
  /\ (forall a b open n, Client st = None -> socketPump st = [] ->
      exists ma mb,
        socketPump (exec (Remote.emitHandler a) st) = [ma]
        /\ (let queued := exec (Remote.emitHandler b) (exec (Remote.emitHandler a) st) in
            let waiting := Nat.iter n (exec Remote.pumpHandler)
                                      (exec Remote.pumpHandler queued) in
            let flushed := exec Remote.pumpHandler (exec (Remote.opened open) waiting) in
            Client queued = None /\ socketPump queued = [ma; mb]
            /\ Client waiting = Some (Socket CONNECTING [])
            /\ socketPump waiting = [ma; mb]
            /\ Client flushed = Some (Socket OPEN [ma; mb])
            /\ socketPump flushed = [])).
Proof.
  split; [apply pump_empty|].
  split; [intros Hq Hc; split; [now apply pump_absent|split; reflexivity]|].
  split; [apply pump_open|].
  split; [apply pump_not_open|].
  intros a b open n Hc Hq.
  destruct (remote_emit_appends_one a) as [ma Ha].
  destruct (remote_emit_appends_one b) as [mb Hb].
  exists ma, mb. cbv zeta.
  assert (exec (Remote.emitHandler a) st = set_socketPump [ma] st) as Ea.
  { unfold exec. rewrite Ha, Hq. reflexivity. }
  assert (exec (Remote.emitHandler b) (exec (Remote.emitHandler a) st)
          = set_socketPump [ma; mb] st) as Eb.
  { rewrite Ea. unfold exec. rewrite Hb. reflexivity. }
  rewrite Eb, Ea.
  split; [reflexivity|]. split; [assumption|]. split; [reflexivity|].
  assert (exec Remote.pumpHandler (set_socketPump [ma; mb] st)
          = set_Client (Some (Socket CONNECTING [])) (set_socketPump [ma; mb] st)) as Ew.
  { unfold exec at 1. rewrite pump_absent; [reflexivity|discriminate|assumption]. }
  rewrite Ew, pump_connecting_idle by reflexivity.
  split; [reflexivity|]. split; [reflexivity|].
  set (waiting := set_Client _ _).
  destruct (opened_Client open waiting (Socket CONNECTING []) eq_refl) as [Ho Hs].
  unfold exec at 1 3.
  rewrite (pump_open _ _ (ltac:(rewrite Hs; discriminate)) Ho eq_refl).
  rewrite Hs. split; reflexivity.
Qed.

Lemma pumpHandler_tick_witness :
  Remote.pumpHandler (set_socketPump ["m"] (install None))
  = (Return tt, exec Remote.connect (set_socketPump ["m"] (install None))).
Proof.
  apply (proj1 (proj2 (pumpHandler_tick (set_socketPump ["m"] (install None))))).
  - discriminate.
  - reflexivity.
Defined.

(** ** Registries: how each operation runs *)

Lemma events_of_insert_arr (H : gmap string slot) k l :
  events_of (<[k := Arr l]> H) k = Some l.
Proof. unfold events_of. now rewrite lookup_insert_eq. Qed.

Lemma events_of_insert_null (H : gmap string slot) k :
  events_of (<[k := Null]> H) k = None.
Proof. unfold events_of. now rewrite lookup_insert_eq. Qed.

Lemma events_of_push_entry (H : gmap string slot) k e :
  events_of (push_entry k e H) k = Some (default [] (events_of H k) ++ [e])%list.
Proof.
  unfold push_entry. destruct (events_of H k) eqn:E; apply events_of_insert_arr.
Qed.

(** The backward splice loop removes exactly the matching entries. *)
Lemma detach_loop_prefix callback : forall n Handler,
  n <= List.length Handler ->
  detach_loop callback n Handler
  = (List.filter (fun e => negb (matches callback e)) (take n Handler) ++ drop n Handler)%list.
Proof.
  induction n as [|index IH]; intros Handler Hn.
  - reflexivity.
  - destruct (Handler !! index) as [e|] eqn:He.
    2:{ apply lookup_ge_None in He. lia. }
    cbn [detach_loop]. rewrite He.
    rewrite (take_S_r _ _ _ He), List.filter_app. cbn [List.filter].
    destruct (matches callback e) eqn:Hm; cbn [negb].
    + rewrite IH.
      2:{ rewrite length_delete by eauto. lia. }
      rewrite app_nil_r, delete_take_drop.
      rewrite take_app_length' by (rewrite length_take; lia).
      rewrite drop_app_length' by (rewrite length_take; lia).
      reflexivity.
    + rewrite IH by lia. rewrite <- app_assoc. cbn [app].
      now rewrite (drop_S _ _ _ He).
Qed.

Lemma detach_loop_filter callback Handler :
  detach_loop callback (List.length Handler) Handler
  = List.filter (fun e => negb (matches callback e)) Handler.
Proof.
  rewrite detach_loop_prefix by lia.
  now rewrite firstn_all, drop_all, app_nil_r.
Qed.

Lemma same_function_refl c : same_function c c = true.
Proof. destruct c; simpl; apply Nat.eqb_refl. Qed.

Lemma matches_itself c this : matches (Some c) (Entry c this) = true.
Proof. simpl. now rewrite same_function_refl. Qed.

Lemma local_attach_run s cb this st :
  Local.attachHandler (VStr s) cb this st
  = (Return tt,
     set_local_Handlers
       (push_entry (replace_dash is_alnum s) (Entry cb this) (local_Handlers st)) st).
Proof. reflexivity. Qed.

Lemma remote_attach_run s cb this st :
  configured st ->
  Remote.attachHandler (VStr s) cb this st
  = (Return tt,
     set_remote_Handlers
       (push_entry (replace_dash is_alnum s) (Entry cb this) (remote_Handlers st)) st).
Proof.
  unfold configured. intros Hc. unfold Remote.attachHandler, normalized, normalize. run.
  now rewrite Hc.
Qed.

Lemma set_local_Handlers_same st : set_local_Handlers (local_Handlers st) st = st.
Proof. now destruct st. Qed.

Lemma set_remote_Handlers_same st : set_remote_Handlers (remote_Handlers st) st = st.
Proof. now destruct st. Qed.

Lemma local_normalized s st :
  normalized normalize (get_prop "camelCase" Local.options) (VStr s) st
  = (Return (replace_dash is_alnum s), st).
Proof. reflexivity. Qed.

Lemma remote_normalized s st :
  configured st ->
  normalized normalize (get_prop "camelCase" (remote_options st)) (VStr s) st
  = (Return (replace_dash is_alnum s), st).
Proof. unfold configured, normalized, normalize, ret. now intros ->. Qed.

Lemma local_detach_run a s st :
  detach_identifier a = VStr s ->
  Local.detachHandler a st
  = (Return tt,
     set_local_Handlers (detached a (replace_dash is_alnum s) (local_Handlers st)) st).
Proof.
  intros Ha. unfold Local.detachHandler, bind. rewrite Ha, local_normalized.
  unfold detached.
  destruct a as [|i|i callback]; run; [reflexivity| |];
    destruct (events_of (local_Handlers st) _) eqn:E;
    rewrite ?detach_loop_filter, ?set_local_Handlers_same; reflexivity.
Qed.

Lemma remote_detach_run a s st :
  configured st ->
  detach_identifier a = VStr s ->
  Remote.detachHandler a st
  = (Return tt,
     set_remote_Handlers (detached a (replace_dash is_alnum s) (remote_Handlers st)) st).
Proof.
  intros Hc Ha. unfold Remote.detachHandler, bind at 1 2, gets at 1.
  rewrite Ha, (remote_normalized _ _ Hc).
  unfold detached.
  destruct a as [|i|i callback]; run; [reflexivity| |];
    destruct (events_of (remote_Handlers st) _) eqn:E;
    rewrite ?detach_loop_filter, ?set_remote_Handlers_same; reflexivity.
Qed.

Lemma set_calls_same st : set_calls (calls st) st = st.
Proof. now destruct st. Qed.

Lemma local_emit_run (s : string) (rest : list value) (st : bus) :
  Local.emitHandler (VStr s :: rest) st
  = let key := replace_dash is_letter s in
    let arguments := VStr s :: rest in
    match set_member "undefined" (VStr key) (Local.payload arguments) with
    | None => (Throw TypeError, st)
    | Some args =>
        match events_of (local_Handlers st) key with
        | Some Events =>
            match forEach Events args st with
            | (Return _, st') => (Return (true, Local.written_back arguments args), st')
            | (Throw e, st') => (Throw e, st')
            end
        | None => (Return (false, Local.written_back arguments args), st)
        end
    end.
Proof.
  unfold Local.emitHandler. cbv zeta.
  change (to_string (get_prop "identifier" Local.options)) with "undefined".
  change (normalized normalize_emit (get_prop "camelCase" Local.options)
            (argument 0 (VStr s :: rest)))
    with (@ret string (replace_dash is_letter s)).
  run.
  destruct (set_member _ _ _); [|reflexivity].
  destruct (events_of _ _); reflexivity.
Qed.

(** ** Detach without arguments (C7) *)

(** C7: [detachHandler()] reads [identifier.replace] before it looks at the
    number of arguments; [identifier] is [undefined] and [camelCase] is
    always set, so the call throws a TypeError and the registry is left as
    it was: nothing is cleared. *)
Theorem detach_without_arguments_throws (st : bus) :
  Local.detachHandler Detach0 st = (Throw TypeError, st)
  /\ (configured st -> Remote.detachHandler Detach0 st = (Throw TypeError, st)).
Proof.
  split; [reflexivity|].
  unfold configured. intros Hc.
  unfold Remote.detachHandler, normalized. run. simpl. now rewrite Hc.
Qed.

Lemma detach_without_arguments_witness :
  Remote.detachHandler Detach0 (install None) = (Throw TypeError, install None).
Proof.
  apply (proj2 (detach_without_arguments_throws (install None))).
  apply install_configured.
Defined.

(** After [attach("ping", f)] and [detach()], [emit("ping")] still finds
    and invokes [f]. *)
Lemma detach_without_arguments_example :
  let st1 := exec (Local.attachHandler (VStr "ping") (Host 1 false) VNull) (install None) in
  let st2 := exec (Local.detachHandler Detach0) st1 in
  result (Local.detachHandler Detach0) st1 = Throw TypeError
  /\ st2 = st1
  /\ result (Local.emitHandler [VStr "ping"]) st2 = Return (true, [VStr "ping"])
  /\ List.length (calls (exec (Local.emitHandler [VStr "ping"]) st2)) = 1.
Proof. cbv zeta. repeat split. Qed.

(** ** The value local emit returns (C8) *)

Lemma emit_after_last_entry_detached
    (st : bus) (s : string) (f : nat) (raises : bool) (this : value) :
  events_of (local_Handlers st) (normalize (VBool true) s) = None ->
  has_dash_cls is_digit s = false ->
  let st1 := exec (Local.attachHandler (VStr s) (Host f raises) this) st in
  let st2 := exec (Local.detachHandler (Detach2 (VStr s) (Some (Host f raises)))) st1 in
  events_of (local_Handlers st2) (normalize (VBool true) s) = Some []
  /\ Local.emitHandler [VStr s] st2 = (Return (true, [VStr s]), st2).
Proof.
  intros Hnone Hdigit. cbv zeta. unfold normalize in *. simpl truthy in *. cbv iota in *.
  unfold exec. rewrite local_attach_run. cbn [snd].
  rewrite (local_detach_run _ s) by reflexivity. cbn [snd].
  set (k := replace_dash is_alnum s) in *.
  assert (events_of
            (local_Handlers
               (set_local_Handlers
                  (detached (Detach2 (VStr s) (Some (Host f raises))) k
                     (local_Handlers
                        (set_local_Handlers
                           (push_entry k (Entry (Host f raises) this) (local_Handlers st)) st)))
                  (set_local_Handlers
                     (push_entry k (Entry (Host f raises) this) (local_Handlers st)) st))) k
          = Some []) as Hk.
  { destruct st; cbn in *. unfold detached.
    rewrite events_of_push_entry, Hnone. cbn [default app List.filter].
    rewrite matches_itself. cbn. apply events_of_insert_arr. }
  split; [exact Hk|].
  rewrite local_emit_run. cbv zeta.
  rewrite (replace_dash_letter_alnum s Hdigit). fold k. rewrite Hk.
  reflexivity.
Qed.

Lemma emit_misses_entry (st : bus) (s : string) (cb : jsfun) (this : value) :
  let st1 := exec (Local.attachHandler (VStr s) cb this) st in
  events_of (local_Handlers st1) (normalize_emit (VBool true) s) = None ->
  (exists Events,
     events_of (local_Handlers st1) (normalize (VBool true) s)
     = Some (Events ++ [Entry cb this])%list)
  /\ Local.emitHandler [VStr s] st1 = (Return (false, [VStr s]), st1).
Proof.
  cbv zeta. unfold normalize, normalize_emit. simpl truthy. cbv iota.
  unfold exec. rewrite local_attach_run. cbn [snd]. intros Hnone.
  split.
  - destruct st; cbn. rewrite events_of_push_entry. eexists. reflexivity.
  - rewrite local_emit_run. cbv zeta. now rewrite Hnone.
Qed.

(** C8: the boolean that local emit returns is not whether an entry is
    registered under the normalized identifier. Once
    [detach(identifier, callback)] has removed the only entry of an
    identifier, the identifier still maps to an array, now empty, and an
    empty array is truthy: emit returns [true] although no entry is
    registered and no callback runs. And emit looks under the identifier
    with only the dashes before letters replaced: where that key holds no
    sequence, emit returns [false] although the entry just attached is
    registered under the normalized identifier. *)
Theorem local_emit_return_value
    (st : bus) (s : string) (f : nat) (raises : bool) (this : value) :
  (events_of (local_Handlers st) (normalize (VBool true) s) = None ->
   has_dash_cls is_digit s = false ->
   let st1 := exec (Local.attachHandler (VStr s) (Host f raises) this) st in
   let st2 := exec (Local.detachHandler (Detach2 (VStr s) (Some (Host f raises)))) st1 in
   events_of (local_Handlers st2) (normalize (VBool true) s) = Some []
   /\ Local.emitHandler [VStr s] st2 = (Return (true, [VStr s]), st2))
  /\ (let st1 := exec (Local.attachHandler (VStr s) (Host f raises) this) st in
      events_of (local_Handlers st1) (normalize_emit (VBool true) s) = None ->
      (exists Events,
         events_of (local_Handlers st1) (normalize (VBool true) s)
         = Some (Events ++ [Entry (Host f raises) this])%list)
      /\ Local.emitHandler [VStr s] st1 = (Return (false, [VStr s]), st1)).
Proof.
  split.
  - apply emit_after_last_entry_detached.
  - apply emit_misses_entry.
Qed.

Lemma local_emit_return_value_witness :
  (let st1 := exec (Local.attachHandler (VStr "ping") (Host 1 false) VNull) (install None) in
   let st2 := exec (Local.detachHandler (Detach2 (VStr "ping") (Some (Host 1 false)))) st1 in
   events_of (local_Handlers st2) (normalize (VBool true) "ping") = Some []
   /\ Local.emitHandler [VStr "ping"] st2 = (Return (true, [VStr "ping"]), st2))
  /\ (let st1 := exec (Local.attachHandler (VStr "a-1") (Host 1 false) VNull) (install None) in
      (exists Events,
         events_of (local_Handlers st1) (normalize (VBool true) "a-1")
         = Some (Events ++ [Entry (Host 1 false) VNull])%list)
      /\ Local.emitHandler [VStr "a-1"] st1 = (Return (false, [VStr "a-1"]), st1)).
Proof.
  split.
  - apply (proj1 (local_emit_return_value (install None) "ping" 1 false VNull));
      reflexivity.
  - apply (proj2 (local_emit_return_value (install None) "a-1" 1 false VNull)).
    reflexivity.
Defined.

(** ** Local first, remote otherwise (C1) *)

(** C1: [$emit(identifier)] without a local sequence for the identifier
    appends one item to the queue, and that item is ["[]"], whatever the
    identifier: the identifier was assigned to the array [args] as a named
    property, which the serialization of an array does not write. *)
Theorem facade_emit_unhandled (st : bus) (s : string) :
  events_of (local_Handlers st) (normalize_emit (VBool true) s) = None ->
  Facade.emit [VStr s] st
  = (Return tt, set_socketPump (socketPump st ++ ["[]"]) st).
Proof.
  unfold normalize_emit. simpl truthy. cbv iota. intros Hnone.
  unfold Facade.emit, bind. rewrite local_emit_run. cbv zeta.
  rewrite Hnone. reflexivity.
Qed.

Lemma facade_emit_unhandled_witness :
  Facade.emit [VStr "ping"] (install None)
  = (Return tt, set_socketPump (socketPump (install None) ++ ["[]"]) (install None)).
Proof. apply (facade_emit_unhandled (install None) "ping"). reflexivity. Defined.

(** Two more ways past the local-first rule: a handler attached as
    ["a-1"] does not keep [$emit("a-1")] from the queue, and an identifier
    whose entries were all detached keeps [$emit] from it. *)
Lemma facade_emit_examples :
  (let st1 := exec (Local.attachHandler (VStr "a-1") (Host 1 false) VNull) (install None) in
   socketPump (exec (Facade.emit [VStr "a-1"]) st1) = ["[]"]
   /\ calls (exec (Facade.emit [VStr "a-1"]) st1) = [])
  /\ (let st1 := exec (Local.attachHandler (VStr "ping") (Host 1 false) VNull) (install None) in
      let st2 := exec (Local.detachHandler (Detach2 (VStr "ping") (Some (Host 1 false)))) st1 in
      Facade.emit [VStr "ping"] st2 = (Return tt, st2)).
Proof. cbv zeta. repeat split. Qed.

(** ** Once (C6) *)

(** C6: the closure that [$once] registers starts with
    [Vue.remote.detach(...)], which throws; the callback behind it is never
    invoked, and the closure stays registered. Attached to the local
    channel and emitted twice, or attached to the remote channel and
    addressed by two inbound messages, the callback has run zero times and
    both emits have thrown a TypeError. *)
Theorem once_never_invokes_callback
    (options : option object) (this : value) (s : string) (f : nat) (raises : bool) :
  (let st1 := exec (Facade.once this (VStr s) (VBool true) (Host f raises)) (install options) in
   calls (exec (Facade.emit [VStr s]) (exec (Facade.emit [VStr s]) st1)) = []
   /\ (has_dash_cls is_digit s = false ->
       Facade.emit [VStr s] st1 = (Throw TypeError, st1)))
  /\ (let st1 := exec (Facade.once this (VStr s) (VBool false) (Host f raises)) (install options) in
      let Json := VObj [(to_string (get_prop "identifier" (remote_options st1)), VStr s)] in
      Remote.messageHandler Json st1 = (Throw TypeError, st1)
      /\ calls st1 = []).
Proof.
  split; cbv zeta.
  - assert (exec (Facade.once this (VStr s) (VBool true) (Host f raises)) (install options)
            = set_closures 1
                (set_local_Handlers
                   {[ replace_dash is_alnum s
                      := Arr [Entry (Once 0 (VStr s) (Host f raises) this) this] ]}
                   (install options))) as ->.
    { unfold Facade.once, Facade.attach, exec. simpl truthy. cbv iota. run.
      unfold set_closures at 1. cbn [closures install].
      rewrite local_attach_run. reflexivity. }
    set (st1 := set_closures 1 _).
    assert (forall st, local_Handlers st = local_Handlers st1 ->
              calls st = [] ->
              calls (exec (Facade.emit [VStr s]) st) = []
              /\ local_Handlers (exec (Facade.emit [VStr s]) st) = local_Handlers st1) as Hstep.
    { intros st HH Hcalls. unfold Facade.emit, exec, bind.
      rewrite local_emit_run. cbv zeta. cbn [Local.payload set_member].
      rewrite HH. subst st1. cbn [local_Handlers set_closures set_local_Handlers install].
      destruct (decide (replace_dash is_alnum s = replace_dash is_letter s)) as [Heq|Hne].
      - rewrite Heq. unfold events_of. rewrite lookup_singleton_eq. cbn.
        rewrite Heq in HH. split; assumption.
      - unfold events_of. rewrite lookup_singleton_ne by assumption. cbn.
        split; assumption. }
    split.
    + destruct (Hstep st1 eq_refl eq_refl) as [Hc1 Hh1].
      now destruct (Hstep _ Hh1 Hc1).
    + intros Hdigit. unfold Facade.emit, bind.
      rewrite local_emit_run. cbv zeta. cbn [Local.payload set_member].
      rewrite (replace_dash_letter_alnum s Hdigit).
      subst st1. cbn [local_Handlers set_closures set_local_Handlers install].
      unfold events_of. rewrite lookup_singleton_eq. reflexivity.
  - assert (exec (Facade.once this (VStr s) (VBool false) (Host f raises)) (install options)
            = set_closures 1
                (set_remote_Handlers
                   {[ replace_dash is_alnum s
                      := Arr [Entry (Once 0 (VStr s) (Host f raises) this) this] ]}
                   (install options))) as ->.
    { unfold Facade.once, Facade.attach, exec. simpl truthy. cbv iota. run.
      unfold set_closures at 1. cbn [closures install].
      rewrite remote_attach_run; [reflexivity|].
      unfold configured. cbn [remote_options set_closures install].
      rewrite init_options_camelCase. apply truthy_js_or_true. }
    split; [|reflexivity].
    unfold Remote.messageHandler. run.
    cbn [remote_options set_closures set_remote_Handlers install get_member].
    set (idf := to_string _).
    assert (get_prop idf [(idf, VStr s)] = VStr s) as ->.
    { cbn. now rewrite String.eqb_refl. }
    unfold normalized, normalize. rewrite init_options_camelCase, truthy_js_or_true. run.
    cbn [remote_Handlers set_closures set_remote_Handlers install].
    unfold events_of. rewrite lookup_singleton_eq. reflexivity.
Qed.

Lemma once_never_invokes_callback_witness :
  let st1 := exec (Facade.once VNull (VStr "ping") (VBool true) (Host 1 false)) (install None) in
  Facade.emit [VStr "ping"] st1 = (Throw TypeError, st1).
Proof.
  apply (proj2 (proj1 (once_never_invokes_callback None VNull "ping" 1 false))).
  reflexivity.
Defined.

(** ** Where the identifier is normalized (C4) *)

Lemma message_member_run Json s st :
  configured st ->
  get_member (to_string (get_prop "identifier" (remote_options st))) Json = Some (VStr s) ->
  Remote.messageHandler Json st
  = match events_of (remote_Handlers st) (replace_dash is_alnum s) with
    | Some Events => forEach Events Json st
    | None => (Return tt, st)
    end.
Proof.
  intros Hc Hid. unfold Remote.messageHandler, bind at 1, gets at 1.
  rewrite Hid. unfold bind at 1.
  rewrite (remote_normalized _ _ Hc). run.
  now destruct (events_of _ _).
Qed.

Lemma message_run props s st :
  configured st ->
  get_prop (to_string (get_prop "identifier" (remote_options st))) props = VStr s ->
  Remote.messageHandler (VObj props) st
  = match events_of (remote_Handlers st) (replace_dash is_alnum s) with
    | Some Events => forEach Events (VObj props) st
    | None => (Return tt, st)
    end.
Proof.
  intros Hc Hid. unfold Remote.messageHandler, bind at 1, gets at 1.
  cbn [get_member]. rewrite Hid. unfold bind at 1.
  rewrite (remote_normalized _ _ Hc). run.
  now destruct (events_of _ _).
Qed.

(** C4, the claim as stated fails. A handler attached as ["a-1"] is filed
    under ["a1"], where local emit of ["a-1"] does not look; and remote emit
    of ["new-score"] writes ["new-score"] to the message, while a handler
    attached as ["new-score"], and an inbound message so named, use
    ["newScore"]. *)
Lemma normalization_differs_between_operations :
  (let st1 := exec (Local.attachHandler (VStr "a-1") (Host 1 false) VNull) (install None) in
   events_of (local_Handlers st1) "a1" = Some [Entry (Host 1 false) VNull]
   /\ result (Local.emitHandler [VStr "a-1"]) st1 = Return (false, [VStr "a-1"]))
  /\ (let st1 := exec (Remote.attachHandler (VStr "new-score") (Host 1 false) VNull)
                      (install None) in
      events_of (remote_Handlers st1) "newScore" = Some [Entry (Host 1 false) VNull]
      /\ calls (exec (Remote.messageHandler (VObj [("identifier", VStr "new-score")])) st1)
         = [Call 1 VNull [VObj [("identifier", VStr "new-score")]]]
      /\ socketPump (exec (Remote.emitHandler [VStr "new-score"; VObj []]) st1)
         = [serialize (VObj [("identifier", VStr "new-score")])]
      /\ serialize (VObj [("identifier", VStr "new-score")])
         <> serialize (VObj [("identifier", VStr "newScore")]))
  /\ ~ (forall s : string,
          exists args,
            result (Local.emitHandler [VStr s])
                   (exec (Local.attachHandler (VStr s) (Host 1 false) VNull) (install None))
            = Return (true, args)).
Proof.
  cbv zeta. split; [repeat split|]. split.
  - repeat split. vm_compute. discriminate.
  - intros H. destruct (H "a-1") as [args Ha]. vm_compute in Ha. discriminate Ha.
Qed.

(** C4, amended: attach and detach on both channels and the inbound message
    handler file and look up an identifier under one and the same key, the
    identifier with every dash that stands before a letter or a digit
    removed and that character upper-cased; local emit looks under that key
    for every identifier without a dash before a digit; remote emit does not
    normalize: where it writes the identifier to the message, into a sole
    plain object or beside a sole truthy value that is not an object, it
    writes it as given. *)
Theorem normalization_sites (st : bus) (s : string) :
  configured st ->
  let k := replace_dash is_alnum s in
  (forall cb this,
     Remote.attachHandler (VStr s) cb this st
     = (Return tt, set_remote_Handlers (push_entry k (Entry cb this) (remote_Handlers st)) st))
  /\ (forall cb this,
        Local.attachHandler (VStr s) cb this st
        = (Return tt, set_local_Handlers (push_entry k (Entry cb this) (local_Handlers st)) st))
  /\ (forall a, detach_identifier a = VStr s ->
        Remote.detachHandler a st
        = (Return tt, set_remote_Handlers (detached a k (remote_Handlers st)) st))
  /\ (forall a, detach_identifier a = VStr s ->
        Local.detachHandler a st
        = (Return tt, set_local_Handlers (detached a k (local_Handlers st)) st))
  /\ (forall props,
        get_prop (to_string (get_prop "identifier" (remote_options st))) props = VStr s ->
        Remote.messageHandler (VObj props) st
        = match events_of (remote_Handlers st) k with
          | Some Events => forEach Events (VObj props) st
          | None => (Return tt, st)
          end)
  /\ (forall Json,
        get_member (to_string (get_prop "identifier" (remote_options st))) Json
        = Some (VStr s) ->
        Remote.messageHandler Json st
        = match events_of (remote_Handlers st) k with
          | Some Events => forEach Events Json st
          | None => (Return tt, st)
          end)
  /\ (has_dash_cls is_digit s = false ->
      forall rest,
        Local.emitHandler (VStr s :: rest) st
        = match set_member "undefined" (VStr k) (Local.payload (VStr s :: rest)) with
          | None => (Throw TypeError, st)
          | Some args =>
              match events_of (local_Handlers st) k with
              | Some Events =>
                  match forEach Events args st with
                  | (Return _, st') =>
                      (Return (true, Local.written_back (VStr s :: rest) args), st')
                  | (Throw e, st') => (Throw e, st')
                  end
              | None => (Return (false, Local.written_back (VStr s :: rest) args), st)
              end
          end)
  /\ (forall props,
        Remote.emitHandler [VStr s; VObj props] st
        = (Return tt,
           set_socketPump
             (socketPump st ++ [serialize (VObj (set_prop "identifier" (VStr s) props))]) st))
  /\ (forall v, truthy v = true -> typeof v <> "object" ->
        Remote.emitHandler [VStr s; v] st
        = (Return tt,
           set_socketPump
             (socketPump st
              ++ [serialize (VObj [("identifier", VStr s); ("arguments", v)])]) st)).
Proof.
  intros Hc. cbv zeta.
  split; [intros; now apply remote_attach_run|].
  split; [intros; apply local_attach_run|].
  split; [intros; now apply remote_detach_run|].
  split; [intros; now apply local_detach_run|].
  split; [intros; now apply message_run|].
  split; [intros; now apply message_member_run|].
  split.
  { intros Hdigit rest. rewrite local_emit_run. cbv zeta.
    now rewrite (replace_dash_letter_alnum s Hdigit). }
  split; [reflexivity|].
  intros v Hv Ht. unfold Remote.emitHandler, js_or.
  change (argument 1 [VStr s; v]) with v. rewrite Hv.
  destruct v; simpl in *; try discriminate; try reflexivity; now destruct Ht.
Qed.

Lemma normalization_sites_witness :
  Local.attachHandler (VStr "new-score") (Host 1 false) VNull (install None)
  = (Return tt,
     set_local_Handlers
       (push_entry "newScore" (Entry (Host 1 false) VNull) (local_Handlers (install None)))
       (install None)).
Proof.
  apply (proj1 (proj2 (normalization_sites (install None) "new-score"
                         (install_configured None)))).
Defined.

(** ** What detach leaves in the mapping (C9) *)

Lemma forEach_pure payload : forall Events st,
  forEach Events payload st
  = (fst (forEach_log Events payload),
     set_calls (calls st ++ snd (forEach_log Events payload)) st).
Proof.
  induction Events as [|[[f raises|k i c t] this] Events IH]; intros st.
  - cbn. run. now rewrite app_nil_r, set_calls_same.
  - cbn [forEach forEach_log callback thisArg apply]. run.
    destruct raises; cbn [fst snd]; [reflexivity|].
    rewrite IH. f_equal. destruct st; cbn. now rewrite <- app_assoc.
  - cbn. run. now rewrite app_nil_r, set_calls_same.
Qed.

Lemma same_registry_refl H : same_registry H H.
Proof. now intros k. Qed.

Lemma same_registry_insert H1 H2 k x :
  same_registry H1 H2 -> same_registry (<[k := x]> H1) (<[k := x]> H2).
Proof.
  intros HH k'. unfold events_of.
  destruct (decide (k = k')) as [->|Hne].
  - now rewrite !lookup_insert_eq.
  - rewrite !lookup_insert_ne by assumption. apply HH.
Qed.

Lemma same_registry_push H1 H2 k e :
  same_registry H1 H2 -> same_registry (push_entry k e H1) (push_entry k e H2).
Proof.
  intros HH. unfold push_entry. rewrite (HH k).
  destruct (events_of H2 k); now apply same_registry_insert.
Qed.

Lemma same_registry_detached H1 H2 a k :
  same_registry H1 H2 -> same_registry (detached a k H1) (detached a k H2).
Proof.
  intros HH. unfold detached. rewrite (HH k).
  destruct a, (events_of H2 k); try assumption;
    try apply same_registry_refl; now apply same_registry_insert.
Qed.

Lemma same_registry_null_absent H k :
  same_registry (<[k := Null]> H) (delete k H).
Proof.
  intros k'. unfold events_of.
  destruct (decide (k = k')) as [->|Hne].
  - now rewrite lookup_insert_eq, lookup_delete_eq.
  - now rewrite lookup_insert_ne, lookup_delete_ne.
Qed.

(** Two such states, field by field. *)
Lemma same_bus_fields st1 st2 :
  same_bus st1 st2 ->
  exists o c R1 R2 q p L1 L2 i cl n,
    st1 = Bus o c R1 q p L1 i cl n /\ st2 = Bus o c R2 q p L2 i cl n
    /\ same_registry R1 R2 /\ same_registry L1 L2.
Proof.
  intros (HR & HL & Heq). destruct st1, st2. cbn in *.
  injection Heq as -> -> -> -> -> -> ->.
  repeat eexists; eassumption.
Qed.

Lemma same_bus_intro o c R1 R2 q p L1 L2 i cl n :
  same_registry R1 R2 -> same_registry L1 L2 ->
  same_bus (Bus o c R1 q p L1 i cl n) (Bus o c R2 q p L2 i cl n).
Proof. intros; repeat split; assumption. Qed.

(** The key computation does not touch the state. *)
Lemma normalized_pure norm c i st :
  normalized norm c i st = (fst (normalized norm c i st), st).
Proof. unfold normalized. destruct i, (truthy c); reflexivity. Qed.

Lemma normalized_state norm c i st1 st2 :
  fst (normalized norm c i st1) = fst (normalized norm c i st2).
Proof. unfold normalized. destruct i, (truthy c); reflexivity. Qed.

(** One call keeps two such states alike and shows the caller the same. *)
Lemma perform_same o st1 st2 :
  same_bus st1 st2 ->
  fst (perform o st1) = fst (perform o st2)
  /\ same_bus (snd (perform o st1)) (snd (perform o st2)).
Proof.
  intros HS.
  destruct (same_bus_fields _ _ HS)
    as (o' & c & R1 & R2 & q & p & L1 & L2 & i' & cl & n & -> & -> & HR & HL).
  clear HS.
  pose proof (fun norm cc v =>
                normalized_pure norm cc v (Bus o' c R1 q p L1 i' cl n)) as P1.
  pose proof (fun norm cc v =>
                normalized_pure norm cc v (Bus o' c R2 q p L2 i' cl n)) as P2.
  pose proof (fun norm cc v =>
                normalized_state norm cc v (Bus o' c R1 q p L1 i' cl n)
                                 (Bus o' c R2 q p L2 i' cl n)) as P12.
  destruct o as [[|] i cb t | [|] a | arguments | Json];
    [ unfold perform, Local.attachHandler; run; destruct i
    | unfold perform, Remote.attachHandler; run; cbn [remote_options];
      rewrite P1, P2, P12; destruct (fst (normalized _ _ _ _))
    | unfold perform, Local.detachHandler; run;
      rewrite P1, P2, P12; destruct (fst (normalized _ _ _ _)) as [k|];
      [ destruct a; cbn [local_Handlers]; rewrite ?(HL k);
        [ | destruct (events_of L2 k) | destruct (events_of L2 k) ] | ]
    | unfold perform, Remote.detachHandler; run; cbn [remote_options];
      rewrite P1, P2, P12; destruct (fst (normalized _ _ _ _)) as [k|];
      [ destruct a; cbn [remote_Handlers]; rewrite ?(HR k);
        [ | destruct (events_of R2 k) | destruct (events_of R2 k) ] | ]
    | unfold perform, Local.emitHandler; run;
      rewrite P1, P2, P12; destruct (fst (normalized _ _ _ _)) as [k|];
      [ cbn [local_Handlers]; rewrite (HL k);
        destruct (set_member _ _ _) as [args|];
        [ destruct (events_of L2 k) as [Events|];
          [ rewrite !forEach_pure; destruct (fst (forEach_log Events args)) | ] | ] | ]
    | unfold perform, Remote.messageHandler; run; cbn [remote_options];
      destruct (get_member _ _) as [raw|];
      [ run; rewrite P1, P2, P12; destruct (fst (normalized _ _ _ _)) as [k|];
        [ cbn [remote_Handlers]; rewrite (HR k);
          destruct (events_of R2 k) as [Events|];
          [ rewrite !forEach_pure; destruct (fst (forEach_log Events Json)) | ] | ] | ] ];
    cbn; (split; [reflexivity|]); apply same_bus_intro;
    auto using same_registry_push, same_registry_insert, same_registry_refl.
Qed.

Lemma perform_all_same ops : forall st1 st2,
  same_bus st1 st2 ->
  fst (perform_all ops st1) = fst (perform_all ops st2)
  /\ same_bus (snd (perform_all ops st1)) (snd (perform_all ops st2)).
Proof.
  induction ops as [|o ops IH]; intros st1 st2 HS.
  - split; [reflexivity|assumption].
  - cbn [perform_all fst snd].
    destruct (perform_same o _ _ HS) as [Hr Hs].
    destruct (IH _ _ Hs) as [Hrs Hss].
    split; [now rewrite Hr, Hrs|assumption].
Qed.

(** C9, the claim as stated fails: after [attach("ping", f)], the
    one-argument [detach("ping")] leaves ["ping"] in the mapping, mapped to
    [null], and the two-argument [detach("ping", f)] leaves it mapped to an
    empty array. *)
Lemma detached_identifier_stays_mapped :
  let st1 := exec (Local.attachHandler (VStr "ping") (Host 1 false) VNull) (install None) in
  local_Handlers (exec (Local.detachHandler (Detach1 (VStr "ping"))) st1) !! "ping"
  = Some Null
  /\ local_Handlers
       (exec (Local.detachHandler (Detach2 (VStr "ping") (Some (Host 1 false)))) st1) !! "ping"
     = Some (Arr [])
  /\ ~ (forall (st : bus) (s : string),
          local_Handlers (exec (Local.detachHandler (Detach1 (VStr s))) st)
          !! normalize (VBool true) s = None).
Proof.
  cbv zeta. split; [reflexivity|]. split; [reflexivity|].
  intros H.
  specialize (H (exec (Local.attachHandler (VStr "ping") (Host 1 false) VNull) (install None))
                "ping").
  vm_compute in H. discriminate H.
Qed.

(** C9, amended: the one-argument detach of a registered identifier does
    not remove its key but maps it to [null], under which no lookup finds a
    sequence; and from then on the registry cannot be told from one where
    the key is absent: any sequence of attach, detach, local emit and
    inbound message calls throws and returns the same, call by call, and
    ends in states that again differ at most in keys mapped to [null] in
    one and absent in the other. *)
Theorem null_slot_is_absent (ch : channel) (st : bus) (s : string) :
  configured st ->
  let k := replace_dash is_alnum s in
  is_Some (events_of (Handlers_of ch st) k) ->
  let st1 := exec (perform (Detach ch (Detach1 (VStr s)))) st in
  let absent := set_Handlers ch (delete k (Handlers_of ch st)) st in
  Handlers_of ch st1 !! k = Some Null
  /\ events_of (Handlers_of ch st1) k = None
  /\ Handlers_of ch absent !! k = None
  /\ forall ops,
       fst (perform_all ops st1) = fst (perform_all ops absent)
       /\ same_bus (snd (perform_all ops st1)) (snd (perform_all ops absent)).
Proof.
  intros Hc k [Events HE]. cbv zeta.
  assert (exec (perform (Detach ch (Detach1 (VStr s)))) st
          = set_Handlers ch (<[k := Null]> (Handlers_of ch st)) st) as ->.
  { destruct ch; unfold perform, exec, bind.
    - rewrite (local_detach_run _ s) by reflexivity.
      cbn [snd fst]. unfold detached. cbn [Handlers_of] in HE. fold k. now rewrite HE.
    - rewrite (remote_detach_run _ s) by (assumption || reflexivity).
      cbn [snd fst]. unfold detached. cbn [Handlers_of] in HE. fold k. now rewrite HE. }
  assert (forall H, Handlers_of ch (set_Handlers ch H st) = H) as Hget.
  { intros H. now destruct ch, st. }
  rewrite !Hget.
  split; [apply lookup_insert_eq|].
  split; [apply events_of_insert_null|].
  split; [apply lookup_delete_eq|].
  intros ops. apply perform_all_same.
  destruct ch, st; cbn; repeat split;
    try apply same_registry_refl; apply same_registry_null_absent.
Qed.

Lemma null_slot_is_absent_witness :
  let st := exec (Local.attachHandler (VStr "ping") (Host 1 false) VNull) (install None) in
  let st1 := exec (perform (Detach local (Detach1 (VStr "ping")))) st in
  Handlers_of local st1 !! "ping" = Some Null.
Proof.
  cbv zeta.
  apply (null_slot_is_absent local
           (exec (Local.attachHandler (VStr "ping") (Host 1 false) VNull) (install None))
           "ping").
  - apply install_configured.
  - eexists. reflexivity.
Defined.

(** * Further properties of the code *)

(** ** [Vue.getRemoteID] *)

Lemma to_hex_small d : (d < 16)%N -> to_hex d = String (hex_digit d) "".
Proof.
  intros Hd. unfold to_hex. cbn [to_hex_digits].
  apply N.ltb_lt in Hd as Hb. rewrite Hb.
  now rewrite N.mod_small by assumption.
Qed.

Lemma land_15_small x : (N.land x 15 < 16)%N.
Proof.
  change 15%N with (N.ones 4). rewrite N.land_ones.
  apply N.mod_lt. discriminate.
Qed.

Lemma land_3_small x : (N.land x 3 < 4)%N.
Proof.
  change 3%N with (N.ones 2). rewrite N.land_ones.
  apply N.mod_lt. discriminate.
Qed.

(** The character that replaces a [0], a [1] or an [8]. *)
Lemma replaced_018 c byte :
  is_018 c = true ->
  exists h,
    to_hex (random_digit c byte) = String h ""
    /\ in_class (if Ascii.eqb c "8" then Variant else Hex) h = true.
Proof.
  unfold is_018. intros Hc.
  assert (c = "0" \/ c = "1" \/ c = "8")%char as [ -> | [ -> | -> ] ].
  { apply orb_prop in Hc as [Hc|Hc]; [apply orb_prop in Hc as [Hc|Hc]|];
      apply Ascii.eqb_eq in Hc; auto. }
  - unfold random_digit. cbn [N_of_ascii]. change ((48 - 48) / 4)%N with 0%N.
    change (N.shiftr 15 0) with 15%N. change (48 - 48)%N with 0%N.
    rewrite N.lxor_0_l. pose proof (land_15_small byte) as Hy.
    exists (hex_digit (N.land byte 15)). split; [now apply to_hex_small|].
    destruct (N.land byte 15) as [|p]; [reflexivity|].
    do 4 (destruct p as [p|p|]; try reflexivity); lia.
  - unfold random_digit. change (N_of_ascii "1" - 48)%N with 1%N.
    change (N.shiftr 15 (1 / 4)) with 15%N.
    pose proof (land_15_small byte) as Hy.
    assert (In (N.land byte 15) [0; 1; 2; 3; 4; 5; 6; 7; 8; 9; 10; 11; 12; 13; 14; 15]%N)
      as Hin by (cbn [In]; lia).
    cbn [In] in Hin.
    repeat (destruct Hin as [<-|Hin]; [eexists; split; reflexivity|]).
    destruct Hin.
  - unfold random_digit. change (N_of_ascii "8" - 48)%N with 8%N.
    change (N.shiftr 15 (8 / 4)) with 3%N.
    pose proof (land_3_small byte) as Hy.
    assert (In (N.land byte 3) [0; 1; 2; 3]%N) as Hin by (cbn [In]; lia).
    cbn [In] in Hin.
    repeat (destruct Hin as [<-|Hin]; [eexists; split; reflexivity|]).
    destruct Hin.
Qed.

Lemma replace_018_shape rnd : forall template k,
  forallb (fun c => is_018 c || Ascii.eqb c "-" || Ascii.eqb c "4")
          (list_ascii_of_string template) = true ->
  has_shape (List.map class_of (list_ascii_of_string template))
            (replace_018 rnd k template) = true.
Proof.
  induction template as [|c template IH]; intros k Hall; [reflexivity|].
  cbn [list_ascii_of_string forallb List.map replace_018] in *.
  apply andb_prop in Hall as [Hc Hall].
  destruct (is_018 c) eqn:H018.
  - destruct (replaced_018 c (rnd k mod 256)%N H018) as (h & -> & Hh).
    change (String h "" ++ replace_018 rnd (S k) template)
      with (String h (replace_018 rnd (S k) template)).
    cbn [has_shape]. rewrite IH by assumption. rewrite andb_true_r.
    unfold class_of. unfold is_018 in H018.
    destruct (Ascii.eqb c "8") eqn:E8; [apply Ascii.eqb_eq in E8; now subst c|].
    rewrite orb_false_r in H018.
    assert (Ascii.eqb c "-" = false /\ Ascii.eqb c "4" = false) as [-> ->]; [|exact Hh].
    apply orb_prop in H018 as [H|H]; apply Ascii.eqb_eq in H; subst c; split; reflexivity.
  - cbn [has_shape]. rewrite IH by assumption. rewrite andb_true_r.
    cbn [orb] in Hc. unfold class_of.
    destruct (Ascii.eqb c "-") eqn:Ed; [exact Ed|].
    cbn [orb] in Hc. now rewrite Hc.
Qed.

(** X1: whatever bytes the random source yields, [Vue.getRemoteID()]
    returns a string in the shape of a version-4 UUID: 36 characters,
    lower-case hexadecimal digits in groups of 8, 4, 4, 4 and 12 separated
    by dashes, with [4] as the first digit of the third group and one of
    [8], [9], [a], [b] as the first digit of the fourth. *)
Theorem getRemoteID_uuid_v4 (rnd : nat -> N) :
  has_shape uuid_v4_shape (getRemoteID rnd) = true
  /\ String.length (getRemoteID rnd) = 36.
Proof.
  assert (has_shape uuid_v4_shape (getRemoteID rnd) = true) as Hs.
  { apply (replace_018_shape rnd uuid_template 0). reflexivity. }
  split; [exact Hs|].
  revert Hs. generalize (getRemoteID rnd). intros s.
  unfold uuid_v4_shape. cbn [repeat app].
  do 36 (destruct s as [|? s]; cbn [has_shape]; [discriminate|];
         intros Hs; apply andb_prop in Hs as [_ Hs]; revert Hs).
  destruct s; [reflexivity|discriminate].
Qed.

(** ** What never changes after [install] *)

Lemma send_each_run items : forall st,
  Remote.send_each items st
  = (Return tt,
     set_Client (option_map (fun c => Socket (readyState c) (sent c ++ items)) (Client st)) st).
Proof.
  induction items as [|item items IH]; intros st.
  - cbn. run. f_equal. destruct st as [? [[]|] ? ? ? ? ? ? ?]; cbn; now rewrite ?app_nil_r.
  - cbn [Remote.send_each]. run. unfold Remote.send at 1. run. rewrite IH.
    f_equal. destruct st as [? [[]|] ? ? ? ? ? ? ?]; cbn; [|reflexivity].
    now rewrite <- app_assoc.
Qed.

Lemma keeps_ret {A} (a : A) : keeps (ret a).
Proof. now intros st. Qed.

Lemma keeps_throw {A} e : keeps (@throw A e).
Proof. now intros st. Qed.

Lemma keeps_gets {A} (f : bus -> A) : keeps (gets f).
Proof. now intros st. Qed.

Lemma keeps_modify f : (forall st, fixed (f st) = fixed st) -> keeps (modify f).
Proof. intros H st. apply H. Qed.

Lemma keeps_bind {A B} (m : M A) (k : A -> M B) :
  keeps m -> (forall a, keeps (k a)) -> keeps (bind m k).
Proof.
  intros Hm Hk st. unfold bind. specialize (Hm st).
  destruct (m st) as [[a|e] st']; cbn in *; [|assumption].
  now rewrite Hk.
Qed.

Lemma keeps_forEach Events payload : keeps (forEach Events payload).
Proof. intros st. rewrite forEach_pure. now destruct st. Qed.

Lemma keeps_send_each items : keeps (Remote.send_each items).
Proof.
  induction items as [|item items IH]; cbn [Remote.send_each].
  - apply keeps_ret.
  - apply keeps_bind; [|intros _; exact IH].
    apply keeps_modify. now intros [].
Qed.

Lemma keeps_actions a :
  match a with
  | SocketClose _ => True
  | _ => forall st, fixed (act a st) = fixed st
  end.
Proof.
  destruct a; try exact I; unfold act, exec;
    match goal with |- forall st, fixed (snd (?m st)) = fixed st => change (keeps m) end;
    unfold Remote.connect, Remote.disconnect, Remote.attachHandler, Remote.detachHandler,
      Remote.emitHandler, Local.attachHandler, Local.detachHandler, Local.emitHandler,
      Facade.on, Facade.once, Facade.off, Facade.emit, Facade.attach, Remote.pumpHandler,
      Remote.opened, Remote.openHandler, Remote.errorHandler, Remote.messageHandler,
      Remote.hook, Remote.push, normalized;
    repeat first
      [ apply keeps_ret | apply keeps_throw | apply keeps_gets
      | apply keeps_forEach | apply keeps_send_each
      | apply keeps_modify; intros []; reflexivity
      | apply keeps_bind; [|intros ?]
      | progress cbv zeta
      | progress unfold Remote.connect, Remote.attachHandler, Remote.detachHandler,
          Remote.emitHandler, Local.attachHandler, Local.detachHandler, Local.emitHandler,
          Remote.push, normalized
      | match goal with
        | |- keeps (match ?x with _ => _ end) => destruct x
        | |- keeps (if ?x then _ else _) => destruct x
        | |- keeps ((if ?x then _ else _) _ _ _) => destruct x
        end ].
Qed.

Lemma close_fixed ev st :
  pumpInterval st = None -> fixed (act (SocketClose ev) st) = fixed st.
Proof.
  intros Hp. unfold act, exec, Remote.closeHandler, bind at 1.
  assert (keeps (Remote.hook "closeHandler" ev)) as Hk.
  { unfold Remote.hook.
    repeat first
      [ apply keeps_ret | apply keeps_throw | apply keeps_gets
      | apply keeps_modify; intros []; reflexivity
      | apply keeps_bind; [|intros ?]
      | progress cbv zeta
      | match goal with
        | |- keeps (match ?x with _ => _ end) => destruct x
        | |- keeps (if ?x then _ else _) => destruct x
        end ]. }
  specialize (Hk st).
  destruct (Remote.hook "closeHandler" ev st) as [[[]|e] st']; cbn [snd] in *; [|exact Hk].
  assert (pumpInterval st' = None) as Hp'.
  { unfold fixed in Hk. injection Hk as _ Hq _. congruence. }
  run. rewrite Hp'. cbn. rewrite <- Hk. now destruct st'.
Qed.

Lemma actions_fixed actions : forall st,
  pumpInterval st = None ->
  fixed (fold_left (fun st a => act a st) actions st) = fixed st.
Proof.
  induction actions as [|a actions IH]; intros st Hp; [reflexivity|].
  cbn [fold_left].
  assert (fixed (act a st) = fixed st) as Ha.
  { pose proof (keeps_actions a) as Hk.
    destruct a; try apply Hk. now apply close_fixed. }
  rewrite IH, Ha; [reflexivity|].
  unfold fixed in Ha. injection Ha as _ Hq _. congruence.
Qed.

(** X2: no call of the plugin and no timer or socket event changes the
    options fixed at [install], so identifiers are normalized in every
    state a bus can reach; and none stops the flush timer: the handle that
    [setInterval] returns is not kept, [pumpInterval] stays [null], and the
    branch of the close handler that would clear the timer never runs. *)
Theorem options_and_timer_never_change (options : option object) (actions : list action) :
  let st := reached options actions in
  remote_options st = Remote.init_options options
  /\ configured st
  /\ pumpInterval st = None
  /\ intervals st = 1.
Proof.
  cbv zeta. unfold reached.
  pose proof (actions_fixed actions (install options) eq_refl) as H.
  unfold fixed in H. cbn [install remote_options pumpInterval intervals] in H.
  injection H as Ho Hp Hi.
  repeat split; try assumption.
  unfold configured. rewrite Ho, init_options_camelCase. apply truthy_js_or_true.
Qed.

(** ** Options and the URL *)

Lemma get_or_default_any k k' d o :
  get_prop k (Remote.or_default k' d o)
  = if String.eqb k k' then js_or (get_prop k o) d else get_prop k o.
Proof.
  destruct (String.eqb k k') eqn:E.
  - apply String.eqb_eq in E. subst k'. apply get_or_default.
  - now apply get_or_default_ne.
Qed.

(** X3: [install] keeps every option it is given with a truthy value and
    every option it does not know, and replaces a missing or falsy value of
    [secure], [host], [port], [identifier], [endpoint] or [camelCase] by
    the default: a port [0] or an empty host cannot be configured. *)
Theorem install_option_defaults (options : option object) (k : string) :
  let supplied := get_prop k (from_option id [] options) in
  let installed := get_prop k (remote_options (install options)) in
  (truthy supplied = true -> installed = supplied)
  /\ (forall d, In (k, d) known_defaults -> truthy supplied = false -> installed = d)
  /\ ((forall d, ~ In (k, d) known_defaults) -> installed = supplied).
Proof.
  cbv zeta. unfold install, Remote.init_options. cbn [remote_options].
  rewrite !get_or_default_any. unfold js_or, known_defaults. cbn [In].
  destruct (String.eqb_spec k "camelCase") as [->|H1];
    [|destruct (String.eqb_spec k "endpoint") as [->|H2];
      [|destruct (String.eqb_spec k "identifier") as [->|H3];
        [|destruct (String.eqb_spec k "port") as [->|H4];
          [|destruct (String.eqb_spec k "host") as [->|H5];
            [|destruct (String.eqb_spec k "secure") as [->|H6]]]]]];
    cbn [String.eqb Ascii.eqb Bool.eqb].
  all: (split; [intros Ht; now rewrite ?Ht|]).
  all: split.
  all: first
    [ solve [ intros d Hin Hf; rewrite ?Hf;
              repeat (destruct Hin as [Hin|Hin];
                      [inversion Hin; subst; first [reflexivity|congruence]|]);
              destruct Hin ]
    | solve [ intros Hno; reflexivity ]
    | solve [ intros Hno; exfalso; eapply Hno; eauto 10 ] ].
Qed.

Lemma install_option_defaults_witness :
  get_prop "port" (remote_options (install (Some [("port", VNum 0)]))) = VNum 8080.
Proof.
  apply (proj1 (proj2 (install_option_defaults (Some [("port", VNum 0)]) "port")));
    [cbn; auto|reflexivity].
Defined.

Lemma truthy_js_or_l a b : truthy b = false -> truthy (js_or a b) = truthy a.
Proof. unfold js_or. intros Hb. now destruct (truthy a) eqn:E. Qed.

Lemma truthy_js_or_r a b : truthy b = true -> truthy (js_or a b) = true.
Proof. unfold js_or. intros Hb. now destruct (truthy a) eqn:E. Qed.

(** X4: the URL that [connect] opens after [install] always has a port
    part: scheme, host, a colon, the port, a slash and the endpoint, with
    [wss] exactly for a truthy [secure] and the defaults [localhost],
    [8080] and the empty endpoint for what is missing or falsy. *)
Theorem url_after_install (options : option object) :
  let supplied k := get_prop k (from_option id [] options) in
  Remote.url (remote_options (install options))
  = (if truthy (supplied "secure") then "wss://" else "ws://")
    ++ to_string (js_or (supplied "host") (VStr "localhost"))
    ++ ":" ++ to_string (js_or (supplied "port") (VNum 8080))
    ++ "/" ++ to_string (js_or (supplied "endpoint") (VStr "")).
Proof.
  cbv zeta. unfold Remote.url, install, Remote.init_options. cbn [remote_options].
  rewrite !get_or_default_any. cbn [String.eqb Ascii.eqb Bool.eqb].
  rewrite truthy_js_or_l by reflexivity.
  now rewrite truthy_js_or_r by reflexivity.
Qed.

(** ** Detaching *)

Lemma Handlers_of_set ch H st : Handlers_of ch (set_Handlers ch H st) = H.
Proof. now destruct ch, st. Qed.

Lemma set_Handlers_set ch H H' st :
  set_Handlers ch H (set_Handlers ch H' st) = set_Handlers ch H st.
Proof. now destruct ch, st. Qed.

Lemma set_Handlers_same ch st : set_Handlers ch (Handlers_of ch st) st = st.
Proof. now destruct ch, st. Qed.

Lemma configured_set_Handlers ch H st : configured st -> configured (set_Handlers ch H st).
Proof. now destruct ch, st. Qed.

Lemma perform_detach_run ch a s st :
  configured st ->
  detach_identifier a = VStr s ->
  perform (Detach ch a) st
  = (Return None,
     set_Handlers ch (detached a (replace_dash is_alnum s) (Handlers_of ch st)) st).
Proof.
  intros Hc Ha. destruct ch; unfold perform, bind.
  - now rewrite (local_detach_run _ s).
  - now rewrite (remote_detach_run _ s).
Qed.

Lemma perform_detach_throws ch a st :
  configured st ->
  (forall s, detach_identifier a <> VStr s) ->
  perform (Detach ch a) st = (Throw TypeError, st).
Proof.
  unfold configured. intros Hc Ha.
  destruct ch; unfold perform, Local.detachHandler, Remote.detachHandler, normalized; run;
    rewrite ?Hc; destruct (detach_identifier a) as [| |b|n|s|f|elems named|props] eqn:E;
    try reflexivity; now destruct (Ha s).
Qed.

Lemma filter_twice {A} (f : A -> bool) l :
  List.filter f (List.filter f l) = List.filter f l.
Proof.
  induction l as [|x l IH]; [reflexivity|]. cbn.
  destruct (f x) eqn:E; cbn; rewrite ?E, IH; reflexivity.
Qed.

Lemma detached_twice a k H : detached a k (detached a k H) = detached a k H.
Proof.
  unfold detached. destruct a as [| i | i cb]; [reflexivity| |];
    destruct (events_of H k) as [l|] eqn:E; rewrite ?E; try reflexivity.
  - now rewrite events_of_insert_null.
  - rewrite events_of_insert_arr, filter_twice. apply insert_insert_eq.
Qed.

(** X5: [detach(identifier, callback)] removes from the identifier's
    sequence exactly the entries whose callback is [callback] or a [once]
    closure over it, and keeps the others in their order: the backward loop
    with [splice] neither skips an entry nor reads out of range. Nothing
    else changes, neither another identifier nor the other channel. *)
Theorem detach_callback_removes_exactly
    (ch : channel) (st : bus) (s : string) (cb : jsfun) (Handler : list entry) :
  configured st ->
  events_of (Handlers_of ch st) (normalize (VBool true) s) = Some Handler ->
  let kept := List.filter (fun e => negb (matches (Some cb) e)) Handler in
  perform (Detach ch (Detach2 (VStr s) (Some cb))) st
  = (Return None,
     set_Handlers ch (<[normalize (VBool true) s := Arr kept]> (Handlers_of ch st)) st)
  /\ forallb (fun e => negb (matches (Some cb) e)) kept = true
  /\ (forall e, In e Handler -> matches (Some cb) e = false -> In e kept).
Proof.
  unfold normalize. simpl truthy. cbv iota. intros Hc HE. cbv zeta.
  split; [|split].
  - rewrite (perform_detach_run _ _ s) by (assumption || reflexivity).
    unfold detached. now rewrite HE.
  - apply forallb_forall. intros e He. now apply List.filter_In in He.
  - intros e He Hm. apply List.filter_In. split; [assumption|]. now rewrite Hm.
Qed.

Lemma detach_callback_removes_exactly_witness :
  let st := exec (Local.attachHandler (VStr "ping") (Host 2 false) VNull)
              (exec (Local.attachHandler (VStr "ping") (Host 1 false) VNull) (install None)) in
  perform (Detach local (Detach2 (VStr "ping") (Some (Host 1 false)))) st
  = (Return None,
     set_Handlers local (<["ping" := Arr [Entry (Host 2 false) VNull]]> (Handlers_of local st)) st).
Proof.
  cbv zeta.
  apply (detach_callback_removes_exactly local _ "ping" (Host 1 false)
           [Entry (Host 1 false) VNull; Entry (Host 2 false) VNull]).
  - apply install_configured.
  - reflexivity.
Defined.

(** X6: detach is idempotent, whatever its arguments: a second identical
    call changes nothing; and detaching an identifier that has no sequence
    (never attached, or detached with one argument) changes nothing at all,
    not even the mapping. *)
Theorem detach_idempotent (ch : channel) (a : detach_arguments) (st : bus) :
  configured st ->
  exec (perform (Detach ch a)) (exec (perform (Detach ch a)) st)
  = exec (perform (Detach ch a)) st
  /\ (forall s, detach_identifier a = VStr s ->
      events_of (Handlers_of ch st) (normalize (VBool true) s) = None ->
      perform (Detach ch a) st = (Return None, st)).
Proof.
  unfold normalize. simpl truthy. cbv iota. intros Hc. split.
  - destruct (detach_identifier a) as [| |b|n|s|f|elems named|props] eqn:E;
      try (assert (perform (Detach ch a) st = (Throw TypeError, st)) as Ht
             by (apply perform_detach_throws;
                 [assumption|intros s' Hs'; rewrite E in Hs'; discriminate Hs']);
           unfold exec; rewrite Ht; cbn [snd]; now rewrite Ht).
    unfold exec. rewrite (perform_detach_run ch a s st Hc E). cbn [snd].
    rewrite (perform_detach_run ch a s _ (configured_set_Handlers ch _ st Hc) E).
    cbn [snd]. now rewrite Handlers_of_set, detached_twice, set_Handlers_set.
  - intros s Ha HE. rewrite (perform_detach_run ch a s st Hc Ha).
    unfold detached. rewrite HE.
    destruct a; cbn in Ha; try discriminate; now rewrite set_Handlers_same.
Qed.

Lemma detach_idempotent_witness :
  perform (Detach remote (Detach1 (VStr "never-attached"))) (install None)
  = (Return None, install None).
Proof.
  apply (proj2 (detach_idempotent remote (Detach1 (VStr "never-attached")) (install None)
                  (install_configured None)) "never-attached");
    reflexivity.
Defined.

(** ** The facade over the registries *)

Lemma facade_on_run this s isLocal cb st :
  (channel_of isLocal = remote -> configured st) ->
  Facade.on this (VStr s) isLocal cb st
  = (Return this,
     set_Handlers (channel_of isLocal)
       (push_entry (replace_dash is_alnum s) (Entry cb this)
          (Handlers_of (channel_of isLocal) st)) st).
Proof.
  unfold Facade.on, Facade.attach, channel_of, bind.
  destruct (truthy isLocal); intros Hc.
  - now rewrite local_attach_run.
  - now rewrite remote_attach_run by now apply Hc.
Qed.

Lemma facade_once_run this s isLocal cb st :
  configured st ->
  Facade.once this (VStr s) isLocal cb st
  = (Return this,
     set_Handlers (channel_of isLocal)
       (push_entry (replace_dash is_alnum s)
          (Entry (Once (closures st) (VStr s) cb this) this)
          (Handlers_of (channel_of isLocal) st))
       (set_closures (S (closures st)) st)).
Proof.
  intros Hc. unfold Facade.once, Facade.attach, channel_of. run.
  destruct (truthy isLocal).
  - rewrite local_attach_run. now destruct st.
  - rewrite remote_attach_run by (now destruct st). now destruct st.
Qed.

Lemma facade_off_run this s cb st :
  configured st ->
  Facade.off this (VStr s) cb st
  = (Return this,
     set_remote_Handlers
       (detached (Detach2 (VStr s) cb) (replace_dash is_alnum s) (remote_Handlers st))
       (set_local_Handlers
          (detached (Detach2 (VStr s) cb) (replace_dash is_alnum s) (local_Handlers st))
          st)).
Proof.
  intros Hc. unfold Facade.off, bind.
  rewrite (local_detach_run _ s) by reflexivity.
  rewrite (remote_detach_run _ s) by (reflexivity || now destruct st).
  now destruct st.
Qed.

Lemma events_of_detached a k H :
  a <> Detach0 ->
  events_of (detached a k H) k
  = match a with
    | Detach2 _ cb => List.filter (fun e => negb (matches cb e)) <$> events_of H k
    | _ => None
    end.
Proof.
  intros Ha. unfold detached. destruct a as [|i|i cb].
  - now destruct Ha.
  - destruct (events_of H k) eqn:E; [apply events_of_insert_null|assumption].
  - destruct (events_of H k) eqn:E; [apply events_of_insert_arr|now rewrite E].
Qed.

Lemma matches_undefined e : negb (matches None e) = is_once e.
Proof. destruct e as [[f r|k i c t] this]; reflexivity. Qed.

Lemma filter_ext_bool {A} (f g : A -> bool) l :
  (forall x, f x = g x) -> List.filter f l = List.filter g l.
Proof. intros H. induction l as [|x l IH]; cbn; [reflexivity|]. now rewrite H, IH. Qed.

(** X7: [$off(identifier)] without a callback does not clear the
    identifier. It passes three arguments to both [detach] functions, so
    the one-argument branch is never taken and the loop compares with an
    [undefined] callback: every entry whose function has no [fn] property
    is removed, on both channels, and the [once] closures stay. *)
Theorem off_without_callback_keeps_once (st : bus) (this : value) (s : string) :
  configured st ->
  let k := normalize (VBool true) s in
  let st' := exec (Facade.off this (VStr s) None) st in
  result (Facade.off this (VStr s) None) st = Return this
  /\ events_of (local_Handlers st') k
     = List.filter is_once <$> events_of (local_Handlers st) k
  /\ events_of (remote_Handlers st') k
     = List.filter is_once <$> events_of (remote_Handlers st) k.
Proof.
  unfold normalize. simpl truthy. cbv iota. intros Hc. cbv zeta.
  unfold exec, result. rewrite facade_off_run by assumption. cbn [fst snd].
  split; [reflexivity|].
  destruct st as [o c R q p L i cl n]. cbn -[detached].
  rewrite !events_of_detached by discriminate.
  split; (destruct (events_of _ _); [|reflexivity]); cbn; f_equal;
    apply filter_ext_bool, matches_undefined.
Qed.

Lemma off_without_callback_keeps_once_witness :
  let st := exec (Facade.once VNull (VStr "ping") (VBool true) (Host 2 false))
              (exec (Facade.on VNull (VStr "ping") (VBool true) (Host 1 false))
                 (install None)) in
  events_of (local_Handlers (exec (Facade.off VNull (VStr "ping") None) st)) "ping"
  = Some [Entry (Once 0 (VStr "ping") (Host 2 false) VNull) VNull].
Proof.
  cbv zeta.
  apply (proj1 (proj2 (off_without_callback_keeps_once
                         (exec (Facade.once VNull (VStr "ping") (VBool true) (Host 2 false))
                            (exec (Facade.on VNull (VStr "ping") (VBool true) (Host 1 false))
                               (install None)))
                         VNull "ping" (install_configured None)))).
Defined.

Lemma push_entry_insert k e (H : gmap string slot) :
  push_entry k e H = <[k := Arr (default [] (events_of H k) ++ [e])]> H.
Proof. unfold push_entry. now destruct (events_of H k). Qed.

(** X8: [$off(identifier, callback)] takes back what [$on] or [$once]
    attached: after [$on(identifier, isLocal, callback)] or
    [$once(identifier, isLocal, callback)] followed by
    [$off(identifier, callback)], the identifier's sequence on the chosen
    channel is what it was before, without any earlier entry for the same
    callback; the [once] closure is found through its [fn] property. *)
Theorem off_removes_what_on_and_once_attached
    (st : bus) (this : value) (s : string) (isLocal : value) (cb : jsfun) (once : bool) :
  configured st ->
  let k := normalize (VBool true) s in
  let ch := channel_of isLocal in
  let st1 := exec ((if once then Facade.once else Facade.on) this (VStr s) isLocal cb) st in
  let st2 := exec (Facade.off this (VStr s) (Some cb)) st1 in
  events_of (Handlers_of ch st2) k
  = Some (List.filter (fun e => negb (matches (Some cb) e))
            (default [] (events_of (Handlers_of ch st) k)))
  /\ events_of (Handlers_of (other ch) st2) k
     = List.filter (fun e => negb (matches (Some cb) e))
       <$> events_of (Handlers_of (other ch) st) k.
Proof.
  unfold normalize. simpl truthy. cbv iota. intros Hc. cbv zeta.
  set (k := replace_dash is_alnum s). set (ch := channel_of isLocal).
  set (e := if once then Entry (Once (closures st) (VStr s) cb this) this
            else Entry cb this).
  assert (exists n,
            exec ((if once then Facade.once else Facade.on) this (VStr s) isLocal cb) st
            = set_Handlers ch (push_entry k e (Handlers_of ch st)) (set_closures n st))
    as [n ->].
  { destruct once; unfold exec.
    - rewrite facade_once_run by assumption. now eexists.
    - rewrite facade_on_run by (intros _; assumption).
      exists (closures st). now destruct st. }
  assert (matches (Some cb) e = true) as He.
  { subst e. destruct once; cbn; rewrite same_function_refl; now rewrite ?orb_true_r. }
  unfold exec. rewrite facade_off_run by (now destruct ch, st). cbn [snd].
  destruct ch, st as [o c R q p L i cl m]; cbn -[detached push_entry];
    rewrite !events_of_detached by discriminate;
    rewrite events_of_push_entry; cbn [fmap option_fmap option_map];
    (split; [|reflexivity]); f_equal;
    rewrite List.filter_app; cbn [List.filter]; rewrite He; cbn; apply app_nil_r.
Qed.

Lemma off_removes_what_on_and_once_attached_witness :
  events_of
    (Handlers_of local
       (exec (Facade.off VNull (VStr "ping") (Some (Host 1 false)))
          (exec (Facade.once VNull (VStr "ping") (VBool true) (Host 1 false))
             (install None))))
    "ping"
  = Some [].
Proof.
  apply (proj1 (off_removes_what_on_and_once_attached
                  (install None) VNull "ping" (VBool true) (Host 1 false) true
                  (install_configured None))).
Defined.

(** X9: an identifier without a [replace] method ([undefined], [null], a
    boolean, a number) makes every registry call throw a TypeError before
    anything is read or written: attach and detach (with one or two
    arguments) on both channels, the local emit, and [$on], [$off] and
    [$emit] of the facade, [$emit()] without arguments included. The state
    is unchanged. The remote [emit] alone never calls [replace] on the
    identifier: it enqueues one item. *)
Theorem non_string_identifier_throws
    (st : bus) (identifier this isLocal : value) (cb : jsfun) (callback : option jsfun)
    (rest : list value) :
  configured st ->
  has_no_replace identifier = true ->
  let throws {A} (m : M A) := m st = (Throw TypeError, st) in
  throws (Local.attachHandler identifier cb this)
  /\ throws (Remote.attachHandler identifier cb this)
  /\ throws (Local.detachHandler (Detach1 identifier))
  /\ throws (Local.detachHandler (Detach2 identifier callback))
  /\ throws (Remote.detachHandler (Detach1 identifier))
  /\ throws (Remote.detachHandler (Detach2 identifier callback))
  /\ throws (Local.emitHandler (identifier :: rest))
  /\ throws (Facade.on this identifier isLocal cb)
  /\ throws (Facade.off this identifier callback)
  /\ throws (Facade.emit (identifier :: rest))
  /\ throws (Facade.emit [])
  /\ exists item,
       Remote.emitHandler (identifier :: rest) st
       = (Return tt, set_socketPump (socketPump st ++ [item]) st).
Proof.
  unfold configured. intros Hc Hid. cbv zeta.
  assert (forall norm, normalized norm (get_prop "camelCase" (remote_options st)) identifier st
                       = (Throw TypeError, st)) as Hr.
  { intros norm. unfold normalized. destruct identifier; try discriminate; now rewrite Hc. }
  assert (forall norm, normalized norm (get_prop "camelCase" Local.options) identifier st
                       = (Throw TypeError, st)) as Hl.
  { intros norm. unfold normalized. now destruct identifier. }
  assert (Local.attachHandler identifier cb this st = (Throw TypeError, st)) as Hla.
  { unfold Local.attachHandler, bind. now rewrite Hl. }
  assert (Remote.attachHandler identifier cb this st = (Throw TypeError, st)) as Hra.
  { unfold Remote.attachHandler, bind at 1, gets. unfold bind. now rewrite Hr. }
  assert (forall a, detach_identifier a = identifier ->
                    Local.detachHandler a st = (Throw TypeError, st)) as Hld.
  { intros a Ha. unfold Local.detachHandler, bind at 1. now rewrite Ha, Hl. }
  assert (forall a, detach_identifier a = identifier ->
                    Remote.detachHandler a st = (Throw TypeError, st)) as Hrd.
  { intros a Ha. unfold Remote.detachHandler, bind at 1, gets. unfold bind at 1.
    now rewrite Ha, Hr. }
  assert (Local.emitHandler (identifier :: rest) st = (Throw TypeError, st)) as Hle.
  { unfold Local.emitHandler, bind at 1. cbn [argument nth]. now rewrite Hl. }
  split; [exact Hla|]. split; [exact Hra|].
  split; [now apply Hld|]. split; [now apply Hld|].
  split; [now apply Hrd|]. split; [now apply Hrd|].
  split; [exact Hle|].
  split.
  { unfold Facade.on, Facade.attach, bind. destruct (truthy isLocal).
    - now rewrite Hla.
    - now rewrite Hra. }
  split.
  { unfold Facade.off, bind at 1. now rewrite (Hld (Detach2 identifier callback) eq_refl). }
  split.
  { unfold Facade.emit, bind. now rewrite Hle. }
  split; [reflexivity|].
  destruct (remote_emit_appends_one (identifier :: rest)) as [item Hitem].
  exists item. apply Hitem.
Qed.

Lemma non_string_identifier_throws_witness :
  Facade.on VNull VUndefined (VBool true) (Host 1 false) (install None)
  = (Throw TypeError, install None).
Proof.
  apply (non_string_identifier_throws (install None) VUndefined VNull (VBool true)
           (Host 1 false) None [] (install_configured None) eq_refl).
Defined.

(** ** Dispatch *)

Lemma subscribe_all_run s isLocal subs : forall sub st,
  (channel_of isLocal = remote -> configured st) ->
  subscribe_all (VStr s) isLocal (sub :: subs) st
  = set_Handlers (channel_of isLocal)
      (<[replace_dash is_alnum s :=
           Arr (default [] (events_of (Handlers_of (channel_of isLocal) st)
                              (replace_dash is_alnum s))
                ++ List.map subscription (sub :: subs))%list]>
         (Handlers_of (channel_of isLocal) st)) st.
Proof.
  induction subs as [|sub' subs IH]; intros sub st Hc.
  - unfold subscribe_all. cbn [fold_left]. unfold exec.
    rewrite facade_on_run by assumption. cbn [snd].
    now rewrite push_entry_insert.
  - change (subscribe_all (VStr s) isLocal (sub :: sub' :: subs) st)
      with (subscribe_all (VStr s) isLocal (sub' :: subs)
              (exec (Facade.on (fst sub) (VStr s) isLocal (Host (snd sub) false)) st)).
    unfold exec at 1. rewrite facade_on_run by assumption. cbn [snd].
    rewrite IH by (intros E; apply configured_set_Handlers; auto).
    rewrite Handlers_of_set, set_Handlers_set, push_entry_insert, events_of_insert_arr.
    rewrite insert_insert_eq. cbn [from_option id List.map]. now rewrite <- app_assoc.
Qed.

Lemma forEach_log_returning p : forall pre post,
  forallb returns pre = true ->
  forEach_log (pre ++ post) p
  = (fst (forEach_log post p),
     (flat_map (invocation p) pre ++ snd (forEach_log post p))%list).
Proof.
  induction pre as [|[[f raises|k i c t] this] pre IH]; intros post Hpre.
  - cbn [app flat_map]. now destruct (forEach_log post p).
  - cbn in Hpre. apply andb_prop in Hpre as [Hf Hpre]. destruct raises; [discriminate|].
    cbn [forEach_log callback thisArg app]. now rewrite (IH post Hpre).
  - discriminate.
Qed.

Lemma forEach_log_failing p e post :
  returns e = false ->
  forEach_log (e :: post) p = (Throw (failure e), invocation p e).
Proof.
  destruct e as [[f raises|k i c t] this]; cbn; [|reflexivity].
  now destruct raises.
Qed.

Lemma subscriptions_return subs : forallb returns (List.map subscription subs) = true.
Proof. induction subs as [|sub subs IH]; [reflexivity|exact IH]. Qed.

Lemma subscriptions_invoked p subs :
  flat_map (invocation p) (List.map subscription subs) = List.map (delivery p) subs.
Proof. induction subs as [|sub subs IH]; [reflexivity|]. cbn. now rewrite IH. Qed.

Lemma forEach_all_return Events p st :
  forallb returns Events = true ->
  forEach Events p st
  = (Return tt, set_calls (calls st ++ flat_map (invocation p) Events) st).
Proof.
  intros H. rewrite forEach_pure.
  rewrite <- (app_nil_r Events) at 1 2.
  rewrite (forEach_log_returning p Events [] H). cbn [fst snd forEach_log].
  now rewrite app_nil_r.
Qed.

Lemma forEach_stops pre e post p st :
  forallb returns pre = true -> returns e = false ->
  forEach (pre ++ e :: post) p st
  = (Throw (failure e),
     set_calls (calls st ++ flat_map (invocation p) pre ++ invocation p e) st).
Proof.
  intros Hpre He. rewrite forEach_pure.
  rewrite (forEach_log_returning p pre (e :: post) Hpre).
  now rewrite (forEach_log_failing p e post He).
Qed.

(** X10: local publish and subscribe through the facade. After any
    number of calls of [$on(attached, true, f)] on top of the entries
    already there, [$emit(emitted, ...)] of an identifier that the emit
    site files under the same key invokes the earlier entries and then
    every subscriber, in the order they subscribed, each with the receiver
    of its [$on] call as [this] and the one object [args] as its only
    argument; it returns normally and leaves the queue, the socket and
    both registries alone. *)
Theorem emit_reaches_subscribers_in_order
    (st : bus) (attached emitted : string) (rest : list value)
    (subs : list (value * nat)) (args : value) :
  normalize (VBool true) attached = normalize_emit (VBool true) emitted ->
  forallb returns
    (default [] (events_of (local_Handlers st) (normalize (VBool true) attached))) = true ->
  subs <> [] ->
  set_member "undefined" (VStr (normalize_emit (VBool true) emitted))
             (Local.payload (VStr emitted :: rest)) = Some args ->
  let earlier := default [] (events_of (local_Handlers st) (normalize (VBool true) attached)) in
  let st1 := subscribe_all (VStr attached) (VBool true) subs st in
  Facade.emit (VStr emitted :: rest) st1
  = (Return tt,
     set_calls (calls st ++ flat_map (invocation args) earlier
                ++ List.map (delivery args) subs) st1).
Proof.
  unfold normalize, normalize_emit. simpl truthy. cbv iota.
  intros Hk Hret Hsubs Hargs. cbv zeta.
  destruct subs as [|sub subs]; [congruence|].
  unfold Facade.emit, bind. rewrite local_emit_run. cbv zeta. rewrite Hargs.
  rewrite subscribe_all_run by (intros E; discriminate E).
  change (channel_of (VBool true)) with local. cbn [Handlers_of set_Handlers].
  rewrite <- Hk.
  assert (forall H, local_Handlers (set_local_Handlers H st) = H) as -> by (now destruct st).
  rewrite events_of_insert_arr.
  rewrite forEach_all_return.
  - cbn [fst]. f_equal. rewrite flat_map_app, subscriptions_invoked.
    now destruct st.
  - rewrite forallb_app, Hret. apply subscriptions_return.
Qed.

Lemma emit_reaches_subscribers_in_order_witness :
  Facade.emit [VStr "newScore"; VNum 7]
    (subscribe_all (VStr "new-score") (VBool true) [(VStr "a", 1); (VStr "b", 2)]
       (install None))
  = (Return tt,
     set_calls
       [Call 1 (VStr "a") [VObj [("arguments", VNum 7); ("undefined", VStr "newScore")]];
        Call 2 (VStr "b") [VObj [("arguments", VNum 7); ("undefined", VStr "newScore")]]]
       (subscribe_all (VStr "new-score") (VBool true) [(VStr "a", 1); (VStr "b", 2)]
          (install None))).
Proof.
  apply (emit_reaches_subscribers_in_order (install None) "new-score" "newScore" [VNum 7]
           [(VStr "a", 1); (VStr "b", 2)]
           (VObj [("arguments", VNum 7); ("undefined", VStr "newScore")])).
  - reflexivity.
  - reflexivity.
  - discriminate.
  - reflexivity.
Defined.

(** X11: inbound routing. After any number of calls of
    [$on(attached, false, f)], a message whose field named by
    [options.identifier] holds a string filed under the same key invokes
    the earlier entries and then every subscriber, in the order they
    subscribed, each with the receiver of its [$on] call as [this] and the
    whole parsed message as its only argument; without any entry nothing
    happens. Nothing is enqueued or sent. *)
Theorem message_reaches_subscribers_in_order
    (st : bus) (attached received : string) (props : object) (subs : list (value * nat)) :
  configured st ->
  get_prop (to_string (get_prop "identifier" (remote_options st))) props = VStr received ->
  normalize (VBool true) attached = normalize (VBool true) received ->
  forallb returns
    (default [] (events_of (remote_Handlers st) (normalize (VBool true) attached))) = true ->
  let earlier := default [] (events_of (remote_Handlers st) (normalize (VBool true) attached)) in
  let st1 := subscribe_all (VStr attached) (VBool false) subs st in
  Remote.messageHandler (VObj props) st1
  = (Return tt,
     set_calls (calls st ++ flat_map (invocation (VObj props)) earlier
                ++ List.map (delivery (VObj props)) subs) st1).
Proof.
  unfold normalize. simpl truthy. cbv iota.
  intros Hc Hid Hk Hret. cbv zeta.
  destruct subs as [|sub subs].
  - cbn [subscribe_all fold_left List.map]. rewrite app_nil_r.
    rewrite (message_run props received st Hc Hid). rewrite <- Hk.
    destruct (events_of (remote_Handlers st) (replace_dash is_alnum attached)) as [Events|].
    + now apply forEach_all_return.
    + cbn. now rewrite app_nil_r, set_calls_same.
  - rewrite subscribe_all_run by (intros _; exact Hc).
    change (channel_of (VBool false)) with remote. cbn [Handlers_of set_Handlers].
    rewrite (message_run props received) by (now destruct st). rewrite <- Hk.
    assert (forall H, remote_Handlers (set_remote_Handlers H st) = H) as -> by (now destruct st).
    rewrite events_of_insert_arr.
    rewrite forEach_all_return.
    + f_equal. rewrite flat_map_app, subscriptions_invoked. now destruct st.
    + rewrite forallb_app, Hret. apply subscriptions_return.
Qed.

Lemma message_reaches_subscribers_in_order_witness :
  Remote.messageHandler (VObj [("identifier", VStr "new-score"); ("score", VNum 3)])
    (subscribe_all (VStr "newScore") (VBool false) [(VStr "a", 1); (VStr "b", 2)]
       (install None))
  = (Return tt,
     set_calls
       [Call 1 (VStr "a") [VObj [("identifier", VStr "new-score"); ("score", VNum 3)]];
        Call 2 (VStr "b") [VObj [("identifier", VStr "new-score"); ("score", VNum 3)]]]
       (subscribe_all (VStr "newScore") (VBool false) [(VStr "a", 1); (VStr "b", 2)]
          (install None))).
Proof.
  apply (message_reaches_subscribers_in_order (install None) "newScore" "new-score"
           [("identifier", VStr "new-score"); ("score", VNum 3)]
           [(VStr "a", 1); (VStr "b", 2)] (install_configured None)).
  - reflexivity.
  - reflexivity.
  - reflexivity.
Defined.

(** X12: a handler that does not return ends the local dispatch. With
    entries [pre ++ e :: post] under the key, the entries of [pre]
    returning and [e] a host function that throws or a [once] closure,
    [$emit] invokes [pre] in order, then [e], and what [e] throws escapes
    from [$emit]: no entry of [post] is invoked, and nothing is enqueued
    for the remote side. *)
Theorem failing_handler_stops_emit
    (st : bus) (s : string) (rest : list value) (pre post : list entry) (e : entry)
    (args : value) :
  events_of (local_Handlers st) (normalize_emit (VBool true) s) = Some (pre ++ e :: post)%list ->
  forallb returns pre = true ->
  returns e = false ->
  set_member "undefined" (VStr (normalize_emit (VBool true) s))
             (Local.payload (VStr s :: rest)) = Some args ->
  Facade.emit (VStr s :: rest) st
  = (Throw (failure e),
     set_calls (calls st ++ flat_map (invocation args) pre ++ invocation args e) st).
Proof.
  unfold normalize_emit. simpl truthy. cbv iota.
  intros Hev Hpre He Hargs.
  unfold Facade.emit, bind. rewrite local_emit_run. cbv zeta. rewrite Hargs, Hev.
  now rewrite (forEach_stops pre e post args st Hpre He).
Qed.

Lemma failing_handler_stops_emit_witness :
  let st := exec (Local.attachHandler (VStr "ping") (Host 3 false) VNull)
              (exec (Local.attachHandler (VStr "ping") (Host 2 true) VNull)
                 (exec (Local.attachHandler (VStr "ping") (Host 1 false) VNull)
                    (install None))) in
  Facade.emit [VStr "ping"] st
  = (Throw (HostError 2),
     set_calls [Call 1 VNull [VArr [] [("undefined", VStr "ping")]];
                Call 2 VNull [VArr [] [("undefined", VStr "ping")]]] st).
Proof.
  cbv zeta.
  apply (failing_handler_stops_emit
           (exec (Local.attachHandler (VStr "ping") (Host 3 false) VNull)
              (exec (Local.attachHandler (VStr "ping") (Host 2 true) VNull)
                 (exec (Local.attachHandler (VStr "ping") (Host 1 false) VNull)
                    (install None))))
           "ping" [] [Entry (Host 1 false) VNull]
           [Entry (Host 3 false) VNull] (Entry (Host 2 true) VNull)
           (VArr [] [("undefined", VStr "ping")])); reflexivity.
Defined.

(** X13: the same for an inbound message: the entries before the first
    one that does not return are invoked in order, then that one, and its
    exception escapes from [onmessage]; the entries after it never see the
    message. *)
Theorem failing_handler_stops_message
    (st : bus) (s : string) (props : object) (pre post : list entry) (e : entry) :
  configured st ->
  get_prop (to_string (get_prop "identifier" (remote_options st))) props = VStr s ->
  events_of (remote_Handlers st) (normalize (VBool true) s) = Some (pre ++ e :: post)%list ->
  forallb returns pre = true ->
  returns e = false ->
  Remote.messageHandler (VObj props) st
  = (Throw (failure e),
     set_calls (calls st ++ flat_map (invocation (VObj props)) pre
                ++ invocation (VObj props) e) st).
Proof.
  unfold normalize. simpl truthy. cbv iota.
  intros Hc Hid Hev Hpre He.
  rewrite (message_run props s st Hc Hid), Hev.
  apply (forEach_stops pre e post (VObj props) st Hpre He).
Qed.

Lemma failing_handler_stops_message_witness :
  let st := exec (Facade.on VNull (VStr "ping") (VBool false) (Host 2 false))
              (exec (Facade.once VNull (VStr "ping") (VBool false) (Host 1 false))
                 (install None)) in
  Remote.messageHandler (VObj [("identifier", VStr "ping")]) st
  = (Throw TypeError, set_calls [] st).
Proof.
  cbv zeta.
  apply (failing_handler_stops_message
           (exec (Facade.on VNull (VStr "ping") (VBool false) (Host 2 false))
              (exec (Facade.once VNull (VStr "ping") (VBool false) (Host 1 false))
                 (install None)))
           "ping" [("identifier", VStr "ping")] []
           [Entry (Host 2 false) VNull]
           (Entry (Once 0 (VStr "ping") (Host 1 false) VNull) VNull)).
  - apply (install_configured None).
  - reflexivity.
  - reflexivity.
  - reflexivity.
  - reflexivity.
Defined.



(** With [options.identifier] set to ["0"] the identifier of a parsed
    string or array is its first character or element, and the message is
    routed under it. *)
Lemma message_identifier_under_an_index :
  let st := exec (Remote.attachHandler (VStr "p") (Host 1 false) VNull)
              (install (Some [("identifier", VStr "0")])) in
  Remote.messageHandler (VStr "ping") st
  = (Return tt, set_calls [Call 1 VNull [VStr "ping"]] st)
  /\ Remote.messageHandler (VArr [VStr "p"; VNum 1] []) st
     = (Return tt, set_calls [Call 1 VNull [VArr [VStr "p"; VNum 1] []]] st).
Proof. cbv zeta. split; reflexivity. Qed.

(** ** The queue and the socket *)

(** X15: a flush tick never loses or reorders a message: the messages
    handed to the current socket followed by the queue are the same list
    before and after it. It invokes no handler and changes no registry.
    With an empty queue or a socket already in [Client], so that
    [connect] is not called, it returns normally, and afterwards the queue
    is empty or the socket is not open. *)
Theorem tick_loses_nothing (st : bus) :
  let st' := exec Remote.pumpHandler st in
  (delivered st' ++ socketPump st')%list = (delivered st ++ socketPump st)%list
  /\ calls st' = calls st
  /\ local_Handlers st' = local_Handlers st
  /\ remote_Handlers st' = remote_Handlers st
  /\ (socketPump st = [] \/ Client st <> None ->
      result Remote.pumpHandler st = Return tt
      /\ (socketPump st' = [] \/ exists c, Client st' = Some c /\ Remote.is_open c = false)).
Proof.
  cbv zeta. unfold exec, result, delivered.
  destruct (socketPump st) as [|item queue] eqn:Hq.
  { rewrite (pump_empty st Hq). cbn [fst snd]. rewrite Hq. auto 10. }
  assert (socketPump st <> []) as Hne by (rewrite Hq; discriminate).
  destruct (Client st) as [c|] eqn:Hc.
  - destruct (readyState c) eqn:Hr.
    2: { rewrite (pump_open st c Hne Hc Hr). destruct st; cbn in *. subst.
         rewrite app_nil_r. auto 10. }
    all: rewrite (pump_not_open st c Hc) by (rewrite Hr; discriminate);
      cbn [fst snd]; rewrite Hc, Hq;
      (split; [reflexivity|]); (split; [reflexivity|]); (split; [reflexivity|]);
      (split; [reflexivity|]); intros _; (split; [reflexivity|]);
      right; exists c; unfold Remote.is_open; now rewrite Hr.
  - rewrite (pump_absent st Hne Hc). unfold exec, Remote.connect, modify. cbn [fst snd].
    destruct st; cbn in *. subst.
    split; [reflexivity|]. split; [reflexivity|]. split; [reflexivity|].
    split; [reflexivity|]. intros [H|H]; [discriminate H|now destruct H].
Qed.

(** X16: [onclose] forgets the socket and keeps the queue. Without a
    [closeHandler] option it returns normally and changes nothing but
    [Client], which becomes [null]; with a message still queued the next
    tick then does what [connect] does: the flush goes on with a new
    socket. With a [closeHandler] option that is set but is not a function
    the call throws a TypeError before [Client] is cleared, and nothing
    changes. *)
Theorem close_keeps_queue_and_reconnects (st : bus) (close : value) :
  String.eqb (typeof (get_prop "closeHandler" (remote_options st))) "function" = false ->
  let st1 := exec (Remote.closeHandler close) st in
  if truthy (get_prop "closeHandler" (remote_options st))
  then Remote.closeHandler close st = (Throw TypeError, st)
  else result (Remote.closeHandler close) st = Return tt
       /\ Client st1 = None
       /\ socketPump st1 = socketPump st
       /\ calls st1 = calls st
       /\ local_Handlers st1 = local_Handlers st
       /\ remote_Handlers st1 = remote_Handlers st
       /\ (socketPump st <> [] ->
           exec Remote.pumpHandler st1 = exec Remote.connect st1).
Proof.
  intros Hf. cbv zeta. unfold exec, result, Remote.closeHandler, Remote.hook. run.
  destruct (truthy (get_prop "closeHandler" (remote_options st))) eqn:Ht.
  - destruct (get_prop "closeHandler" (remote_options st)); try reflexivity; discriminate.
  - destruct st as [o c R q [t|] L i cl n]; cbn -[Remote.pumpHandler Remote.connect] in *;
      (split; [reflexivity|]); (split; [reflexivity|]); (split; [reflexivity|]);
      (split; [reflexivity|]); (split; [reflexivity|]); (split; [reflexivity|]);
      intros Hq;
      match goal with
      | |- snd (Remote.pumpHandler ?s) = _ => now rewrite (pump_absent s Hq eq_refl)
      end.
Qed.

Lemma close_keeps_queue_and_reconnects_witness :
  let st := exec (Remote.emitHandler [VStr "ping"]) (exec Remote.connect (install None)) in
  Client (exec (Remote.closeHandler VNull) st) = None
  /\ socketPump (exec (Remote.closeHandler VNull) st) = ["[]"].
Proof.
  cbv zeta.
  pose proof (close_keeps_queue_and_reconnects
                (exec (Remote.emitHandler [VStr "ping"])
                   (exec Remote.connect (install None)))
                VNull eq_refl) as H.
  split; [exact (proj1 (proj2 H))|exact (proj1 (proj2 (proj2 H)))].
Defined.

(** X17: [disconnect()] does not stop the channel. It clears [Client] and
    leaves the queue and the flush timer; whatever is emitted remotely
    after it is queued behind what was already waiting, and on the next
    tick the flush does what [connect] does: it goes on with a new socket,
    the queue kept for it. *)
Theorem disconnect_is_not_final (st : bus) (arguments : list value) :
  let st1 := exec Remote.disconnect st in
  let st2 := exec (Remote.emitHandler arguments) st1 in
  Client st1 = None
  /\ socketPump st1 = socketPump st
  /\ (exists item, socketPump st2 = (socketPump st ++ [item])%list)
  /\ intervals st2 = intervals st
  /\ exec Remote.pumpHandler st2 = exec Remote.connect st2
  /\ socketPump (exec Remote.pumpHandler st2) = socketPump st2.
Proof.
  cbv zeta. destruct (remote_emit_appends_one arguments) as [item Hitem].
  assert (exec Remote.disconnect st = set_Client None st) as -> by reflexivity.
  assert (exec (Remote.emitHandler arguments) (set_Client None st)
          = set_socketPump (socketPump st ++ [item]) (set_Client None st)) as ->.
  { unfold exec. rewrite Hitem. now destruct st. }
  split; [now destruct st|]. split; [now destruct st|].
  split; [exists item; now destruct st|].
  split; [now destruct st|].
  assert (Remote.pumpHandler (set_socketPump (socketPump st ++ [item]) (set_Client None st))
          = (Return tt,
             exec Remote.connect
               (set_socketPump (socketPump st ++ [item]) (set_Client None st)))) as Hp.
  { apply pump_absent.
    - destruct st; cbn. now destruct socketPump0.
    - now destruct st. }
  unfold exec at 1 3. rewrite Hp. cbn [snd].
  split; [reflexivity|]. now destruct st.
Qed.

(** X18: [$emit(identifier, object)] without a local sequence for the
    identifier sends the caller's object with two fields added: the local
    emit has already written the key it looked up to the property named
    ["undefined"] (the local closure has no [options.identifier]), and the
    remote emit adds [identifier] with the identifier as given. *)
Theorem emit_object_unhandled (st : bus) (s : string) (props : object) :
  events_of (local_Handlers st) (normalize_emit (VBool true) s) = None ->
  Facade.emit [VStr s; VObj props] st
  = (Return tt,
     set_socketPump
       (socketPump st
        ++ [serialize
              (VObj (set_prop "identifier" (VStr s)
                       (set_prop "undefined" (VStr (normalize_emit (VBool true) s)) props)))])
       st).
Proof.
  unfold normalize_emit. simpl truthy. cbv iota. intros Hnone.
  unfold Facade.emit, bind. rewrite local_emit_run. cbv zeta.
  rewrite Hnone. reflexivity.
Qed.

Lemma emit_object_unhandled_witness :
  socketPump (exec (Facade.emit [VStr "new-score"; VObj [("score", VNum 3)]]) (install None))
  = ["{" ++ quote "score" ++ ":3," ++ quote "undefined" ++ ":" ++ quote "newScore" ++ ","
     ++ quote "identifier" ++ ":" ++ quote "new-score" ++ "}"].
Proof.
  unfold exec.
  rewrite (emit_object_unhandled (install None) "new-score" [("score", VNum 3)] eq_refl).
  reflexivity.
Defined.

(** ** One key, one channel *)

Lemma perform_attach_run ch s cb this st :
  configured st ->
  perform (Attach ch (VStr s) cb this) st
  = (Return None,
     set_Handlers ch
       (push_entry (replace_dash is_alnum s) (Entry cb this) (Handlers_of ch st)) st).
Proof.
  intros Hc. destruct ch; unfold perform, bind.
  - now rewrite local_attach_run.
  - now rewrite remote_attach_run.
Qed.

(** X19: attach and detach with one or two arguments touch one key of
    one channel. For an identifier filed under [k], every other key of the
    channel's mapping holds what it held, and the other channel's mapping,
    the queue, the socket and the log of calls are unchanged. *)
Theorem attach_detach_touch_one_key
    (st : bus) (ch : channel) (s : string) (cb : jsfun) (this : value)
    (a : detach_arguments) (o : operation) (k' : string) :
  configured st ->
  detach_identifier a = VStr s ->
  o = Attach ch (VStr s) cb this \/ o = Detach ch a ->
  k' <> normalize (VBool true) s ->
  let st' := exec (perform o) st in
  Handlers_of ch st' !! k' = Handlers_of ch st !! k'
  /\ set_Handlers ch ∅ st' = set_Handlers ch ∅ st.
Proof.
  unfold normalize. simpl truthy. cbv iota.
  intros Hc Ha Ho Hk. cbv zeta. unfold exec.
  destruct Ho as [-> | ->].
  - rewrite perform_attach_run by assumption. cbn [snd].
    rewrite Handlers_of_set, set_Handlers_set. split; [|reflexivity].
    rewrite push_entry_insert. now rewrite lookup_insert_ne.
  - rewrite (perform_detach_run ch a s st Hc Ha). cbn [snd].
    rewrite Handlers_of_set, set_Handlers_set. split; [|reflexivity].
    unfold detached. destruct a as [|i|i c]; [discriminate| |];
      destruct (events_of (Handlers_of ch st) _); try reflexivity;
      now rewrite lookup_insert_ne.
Qed.

Lemma attach_detach_touch_one_key_witness :
  let st := exec (Local.attachHandler (VStr "pong") (Host 1 false) VNull) (install None) in
  Handlers_of local (exec (perform (Detach local (Detach1 (VStr "ping")))) st) !! "pong"
  = Handlers_of local st !! "pong".
Proof.
  cbv zeta.
  refine (proj1 (attach_detach_touch_one_key
                   (exec (Local.attachHandler (VStr "pong") (Host 1 false) VNull)
                      (install None))
                   local "ping" (Host 1 false) VNull
                   (Detach1 (VStr "ping")) (Detach local (Detach1 (VStr "ping"))) "pong"
                   _ eq_refl (or_intror eq_refl) _)).
  - apply (install_configured None).
  - discriminate.
Defined.
